(** * Metadata reconciliation and change tracking: a shallow embedding

    The development follows the Python sources:
    - [snowdrop/gpkg.py]                  (module [Gpkg]),
    - [kart/point_cloud/metadata_util.py] (module [MetadataUtil]),
    - [sno/working_copy/mysql.py]         (module [MySql]).

    Python dictionaries are finite maps ([gmap]) with extensional equality,
    which is Python's [==] on dicts; code that may raise returns a [pyresult]. *)

From Stdlib Require Import ZArith String Ascii List DecimalString.
From stdpp Require Import base gmap strings list fin_maps.

Open Scope string_scope.
Open Scope list_scope.

(** ** Python exceptions and fallible results *)

Inductive exn : Type :=
| ValueError (msg : string)
| KeyError (key : string)
| IndexError
| TypeError
| DatabaseError (msg : string).

Inductive pyresult (A : Type) : Type :=
| Ok (a : A)
| Raise (e : exn).

Arguments Ok {A} a.
Arguments Raise {A} e.

#[global] Instance result_ret : MRet pyresult := fun _ a => Ok a.

#[global] Instance result_bind : MBind pyresult := fun _ _ k r =>
  match r with
  | Ok a => k a
  | Raise e => Raise e
  end.

Definition raises {A} (r : pyresult A) : Prop :=
  match r with Ok _ => False | Raise _ => True end.

Definition succeeds {A} (r : pyresult A) : Prop :=
  match r with Ok _ => True | Raise _ => False end.

(** * snowdrop/gpkg.py *)

Module Gpkg.

(** One row of [PRAGMA table_info(t)]: the columns the code reads. *)
Record field : Type := Field {
  f_name : string;
  f_type : string;
  f_pk : Z
}.

(** Truth value of a Python integer. *)
Definition truthy (z : Z) : bool := negb (z =? 0)%Z.

(** The [for field in q] loop of [pk]: [inl] is the early [return] from
    inside the loop, [inr] the list [fields] built when the loop ends. *)
Fixpoint pk_loop (q fields : list field) : string + list field :=
  match q with
  | [] => inr fields
  | f :: q' =>
      if truthy (f_pk f) then inl (f_name f)
      else pk_loop q' (fields ++ [f])
  end.

Definition no_pk_message : string :=
  "No valid GeoPackage primary key field found".

(** [pk(db, table)], on the rows [q] that the PRAGMA query returns. *)
Definition pk (q : list field) : pyresult string :=
  match pk_loop q [] with
  | inl name => Ok name
  | inr fields =>
      match fields !! 0%nat with
      | None => Raise IndexError
      | Some f0 =>
          if String.eqb (f_type f0) "INTEGER" then Ok (f_name f0)
          else Raise (ValueError no_pk_message)
      end
  end.

Definition is_pk_field (f : field) : bool := truthy (f_pk f).

End Gpkg.

(** * kart/point_cloud/metadata_util.py *)

Module MetadataUtil.

(** ** Values *)

(** The leaves of the JSON documents the module handles. *)
Inductive scalar : Type :=
| JNone
| JStr (s : string)
| JInt (z : Z).

#[global] Instance scalar_eq_dec : EqDecision scalar.
Proof. solve_decision. Defined.

(** A value handed to the merge: a dict ([format.json], or the [{}] that
    stands for a dropped part), a list of dicts ([schema.json]) or a str
    ([crs.wkt]). *)
Inductive value : Type :=
| VDict (d : gmap string scalar)
| VList (l : list (gmap string scalar))
| VStr (s : string).

#[global] Instance value_eq_dec : EqDecision value.
Proof. solve_decision. Defined.

(** Modelled from the spec: the class ListOfConflicts of
    kart/list_of_conflicts.py, which is not part of the sources at hand: a
    field's value is "either a single resolved value or a ConflictSet: an
    ordered sequence of distinct values in first-seen order".  What
    [rewrite_and_merge_metadata] stores under a key is a value as it came
    in, or a [ListOfConflicts]; [isinstance] tells them apart. *)
Inductive entry : Type :=
| Plain (v : value)
| ListOfConflicts (l : list value).

#[global] Instance entry_eq_dec : EqDecision entry.
Proof. solve_decision. Defined.

(** The output of [extract_pc_tile_metadata]. *)
Record tile_metadata : Type := TileMetadata {
  format_json : gmap string scalar;
  schema_json : list (gmap string scalar);
  crs_wkt : string;
  tile : gmap string scalar
}.

(** ** class RewriteMetadata(IntFlag) *)

Definition NO_REWRITE : Z := 0.
Definition AS_IF_CONVERTED_TO_COPC : Z := 1.
Definition DROP_OPTIMIZATION : Z := 2.
Definition DROP_FORMAT : Z := 4.
Definition DROP_SCHEMA : Z := 8.

(** [flag in policy] for an [IntFlag]: every bit of [flag] is set in
    [policy]. *)
Definition flag_in (flag policy : Z) : bool :=
  (Z.land flag policy =? flag)%Z.

(** [d[key]] on a dict. *)
Definition getitem (d : gmap string scalar) (key : string) : pyresult scalar :=
  match d !! key with
  | Some v => Ok v
  | None => Raise (KeyError key)
  end.

(** The value a call returned, [{}] standing in for a call that raised. *)
Definition returned (r : pyresult value) : value :=
  match r with
  | Ok v => v
  | Raise _ => VDict ∅
  end.

Section Rewrite.

(** The helpers of kart/point_cloud/schema_util.py, which is not part of
    the sources at hand: each may raise. *)
Variable equivalent_copc_pdrf : scalar -> pyresult scalar.
Variable get_record_length_from_pdrf : scalar -> pyresult scalar.
Variable get_schema_from_pdrf : scalar -> pyresult (list (gmap string scalar)).

Definition rewrite_format (tile_metadata : tile_metadata) (rewrite_metadata : Z)
  : pyresult value :=
  let orig_format := format_json tile_metadata in
  if flag_in DROP_FORMAT rewrite_metadata then
    Ok (VDict ∅)
  else if flag_in DROP_OPTIMIZATION rewrite_metadata then
    Ok (VDict (filter (fun kv => String.prefix "optimization" kv.1 = false)
                      orig_format))
  else if flag_in AS_IF_CONVERTED_TO_COPC rewrite_metadata then
    orig_pdrf ← getitem orig_format "pointDataRecordFormat";
    new_pdrf ← equivalent_copc_pdrf orig_pdrf;
    record_length ← get_record_length_from_pdrf new_pdrf;
    Ok (VDict (<["compression" := JStr "laz"]>
              (<["lasVersion" := JStr "1.4"]>
              (<["optimization" := JStr "copc"]>
              (<["optimizationVersion" := JStr "1.0"]>
              (<["pointDataRecordFormat" := new_pdrf]>
              (<["pointDataRecordLength" := record_length]> ∅)))))))
  else
    Ok (VDict orig_format).

Definition rewrite_schema (tile_metadata : tile_metadata) (rewrite_metadata : Z)
  : pyresult value :=
  if flag_in DROP_SCHEMA rewrite_metadata then
    Ok (VDict ∅)
  else
    let orig_schema := schema_json tile_metadata in
    if flag_in AS_IF_CONVERTED_TO_COPC rewrite_metadata then
      orig_pdrf ← getitem (format_json tile_metadata) "pointDataRecordFormat";
      new_pdrf ← equivalent_copc_pdrf orig_pdrf;
      schema ← get_schema_from_pdrf new_pdrf;
      Ok (VList schema)
    else
      Ok (VList orig_schema).

(** ** The merge *)

(** [_merge_metadata_field(output, key, value)]; the dict [output] is
    updated in place, here the updated dict is returned. *)
Definition _merge_metadata_field
    (output : gmap string entry) (key : string) (value : value)
  : gmap string entry :=
  match output !! key with
  | None => <[key := Plain value]> output
  | Some (ListOfConflicts existing_value) =>
      if decide (value ∈ existing_value) then output
      else <[key := ListOfConflicts (existing_value ++ [value])]> output
  | Some (Plain existing_value) =>
      if decide (existing_value = value) then output
      else <[key := ListOfConflicts [existing_value; value]]> output
  end.

(** The body of the [for tile_metadata in tile_metadata_list] loop. *)
Definition merge_tile (rewrite_metadata : Z)
    (result : gmap string entry) (tile_metadata : tile_metadata)
  : pyresult (gmap string entry) :=
  format ← rewrite_format tile_metadata rewrite_metadata;
  let result := _merge_metadata_field result "format.json" format in
  schema ← rewrite_schema tile_metadata rewrite_metadata;
  let result := _merge_metadata_field result "schema.json" schema in
  Ok (_merge_metadata_field result "crs.wkt" (VStr (crs_wkt tile_metadata))).

Fixpoint merge_loop (rewrite_metadata : Z)
    (tile_metadata_list : list tile_metadata) (result : gmap string entry)
  : pyresult (gmap string entry) :=
  match tile_metadata_list with
  | [] => Ok result
  | tile_metadata :: rest =>
      result ← merge_tile rewrite_metadata result tile_metadata;
      merge_loop rewrite_metadata rest result
  end.

Definition rewrite_and_merge_metadata
    (tile_metadata_list : list tile_metadata) (rewrite_metadata : Z)
  : pyresult (gmap string entry) :=
  merge_loop rewrite_metadata tile_metadata_list ∅.

(** The values that the loop hands to [_merge_metadata_field] under [key],
    one per tile, in the order of the tiles. *)
Definition incoming (rewrite_metadata : Z) (key : string)
    (tile_metadata_list : list tile_metadata) : list value :=
  if decide (key = "format.json") then
    map (fun t => returned (rewrite_format t rewrite_metadata))
        tile_metadata_list
  else if decide (key = "schema.json") then
    map (fun t => returned (rewrite_schema t rewrite_metadata))
        tile_metadata_list
  else if decide (key = "crs.wkt") then
    map (fun t => VStr (crs_wkt t)) tile_metadata_list
  else [].

(** Every tile of the list is rewritten without raising. *)
Definition rewrites_succeed (rewrite_metadata : Z)
    (tile_metadata_list : list tile_metadata) : Prop :=
  Forall (fun t => succeeds (rewrite_format t rewrite_metadata)
                   /\ succeeds (rewrite_schema t rewrite_metadata))
         tile_metadata_list.

End Rewrite.

(** The field-merge rule in the order the specification words it: absent,
    then equal, then already a ConflictSet, then scalar. *)
Definition field_merge_rule
    (acc : gmap string entry) (key : string) (incoming : value)
  : gmap string entry :=
  match acc !! key with
  | None => <[key := Plain incoming]> acc
  | Some current =>
      if decide (current = Plain incoming) then acc
      else match current with
           | ListOfConflicts vs =>
               if decide (incoming ∈ vs) then acc
               else <[key := ListOfConflicts (vs ++ [incoming])]> acc
           | Plain old => <[key := ListOfConflicts [old; incoming]]> acc
           end
  end.

(** ** Reading a merged record *)

(** The values seen so far for one key, without repetition and in
    first-seen order: what the merge keeps of a stream of values. *)
Definition add_distinct (seen : list value) (v : value) : list value :=
  if decide (v ∈ seen) then seen else seen ++ [v].

Definition distinct_values (vs : list value) : list value :=
  fold_left add_distinct vs [].

(** How a list of distinct values is stored under a key. *)
Definition entry_of_distinct (seen : list value) : option entry :=
  match seen with
  | [] => None
  | [v] => Some (Plain v)
  | _ => Some (ListOfConflicts seen)
  end.

Inductive classification : Type := Absent | Scalar | Conflicted.

Definition classify (e : option entry) : classification :=
  match e with
  | None => Absent
  | Some (Plain _) => Scalar
  | Some (ListOfConflicts _) => Conflicted
  end.

Definition entry_values (e : option entry) : list value :=
  match e with
  | None => []
  | Some (Plain v) => [v]
  | Some (ListOfConflicts l) => l
  end.

(** ** Format summaries *)

(** [str(v)], as an f-string formats a value. *)
Definition py_str (v : scalar) : string :=
  match v with
  | JNone => "None"
  | JStr s => s
  | JInt z => NilZero.string_of_int (Z.to_int z)
  end.

(** The truth value of [v]. *)
Definition py_bool (v : scalar) : bool :=
  match v with
  | JNone => false
  | JStr s => negb (String.eqb s "")
  | JInt z => negb (z =? 0)%Z
  end.

(** What the helpers are called with: the whole output of
    [extract_pc_tile_metadata] (a dict with a "format.json" entry), a flat
    dict (a format.json document, or a tile's pointer-file dict with its
    "format" summary), a str, or anything else. *)
Inductive pyarg : Type :=
| ATile (t : tile_metadata)
| ADict (d : gmap string scalar)
| AStr (s : string)
| AOther.

Definition of_scalar (v : scalar) : pyarg :=
  match v with
  | JStr s => AStr s
  | _ => AOther
  end.

Definition extract_format (tile_format : pyarg) : pyarg :=
  match tile_format with
  | ATile t => ADict (format_json t)
  | ADict d =>
      match d !! "format.json" with
      | Some v => of_scalar v
      | None =>
          match d !! "format" with
          | Some v => of_scalar v
          | None => ADict d
          end
      end
  | _ => tile_format
  end.

(** The f-strings of [get_format_summary], on the dict it ends up with. *)
Definition format_summary_of_dict (format_info : gmap string scalar)
  : pyresult string :=
  compression ← getitem format_info "compression";
  lasVersion ← getitem format_info "lasVersion";
  let format_summary :=
    String.append (py_str compression)
                  (String.append "-" (py_str lasVersion)) in
  optimization ← getitem format_info "optimization";
  if py_bool optimization then
    optimizationVersion ← getitem format_info "optimizationVersion";
    Ok (String.append format_summary
          (String.append "/"
             (String.append (py_str optimization)
                (String.append "-" (py_str optimizationVersion)))))
  else Ok format_summary.

(** Subscripting anything but a dict with a str raises TypeError. *)
Definition get_format_summary (format_info : pyarg) : pyresult string :=
  match format_info with
  | ATile t => format_summary_of_dict (format_json t)
  | ADict d =>
      match d !! "format.json" with
      | Some _ => Raise TypeError
      | None => format_summary_of_dict d
      end
  | AStr _ | AOther => Raise TypeError
  end.

(** [needle in haystack] on str. *)
Fixpoint contains (needle haystack : string) : bool :=
  String.prefix needle haystack ||
  match haystack with
  | EmptyString => false
  | String _ rest => contains needle rest
  end.

Definition is_digit (c : ascii) : bool :=
  let n := nat_of_ascii c in (48 <=? n)%nat && (n <=? 57)%nat.

(** The class [[0-9\.]] of the pattern. *)
Definition is_version_char (c : ascii) : bool :=
  is_digit c || Ascii.eqb c ".".

Fixpoint take_while (p : ascii -> bool) (s : string) : string :=
  match s with
  | EmptyString => EmptyString
  | String c rest => if p c then String c (take_while p rest) else EmptyString
  end.

Fixpoint string_forall (p : ascii -> bool) (s : string) : bool :=
  match s with
  | EmptyString => true
  | String c rest => p c && string_forall p rest
  end.

(** [c] is the letter [lower], in either case. *)
Definition letter (lower upper c : ascii) : bool :=
  Ascii.eqb c lower || Ascii.eqb c upper.

(** A str is held as the bytes of its UTF-8 encoding.  The letters of the
    pattern are ASCII, and so are the digits and the dot; but under
    [re.IGNORECASE] a str pattern is matched with Unicode case folding,
    which also takes the long s, U+017F, for an s. *)
Definition long_s : string := String "197" (String "191" EmptyString).

(** One character of the class [[sz]] under [re.IGNORECASE] at the start of
    [s], giving what follows it. *)
Definition match_sz (s : string) : option string :=
  match s with
  | String c rest =>
      if letter "s" "S" c || letter "z" "Z" c then Some rest
      else
        match rest with
        | String c' rest' =>
            if Ascii.eqb c "197" && Ascii.eqb c' "191" then Some rest'
            else None
        | EmptyString => None
        end
  | EmptyString => None
  end.

(** [re.match(r"la[sz]-([0-9\.]+)", s, re.IGNORECASE)], giving group 1: the
    match is anchored at the start of [s] only, and the greedy group takes
    the longest run of digits and dots, which must not be empty. *)
Definition match_las_version (s : string) : option string :=
  match s with
  | String c1 (String c2 rest2) =>
      if letter "l" "L" c1 && letter "a" "A" c2 then
        match match_sz rest2 with
        | Some (String c4 rest) =>
            if Ascii.eqb c4 "-" then
              match take_while is_version_char rest with
              | EmptyString => None
              | group => Some group
              end
            else None
        | _ => None
        end
      else None
  | _ => None
  end.

Definition bad_tile_format : exn := ValueError "Bad tile format".

Definition is_copc (tile_format : pyarg) : pyresult bool :=
  match extract_format tile_format with
  | ADict d => Ok (bool_decide (d !! "optimization" = Some (JStr "copc")))
  | ATile _ => Ok false
  | AStr s => Ok (contains "copc" s)
  | AOther => Raise bad_tile_format
  end.

Definition get_las_version (tile_format : pyarg) : pyresult scalar :=
  match extract_format tile_format with
  | ADict d => Ok (default JNone (d !! "lasVersion"))
  | ATile _ => Ok JNone
  | AStr s =>
      match match_las_version s with
      | Some group => Ok (JStr group)
      | None => Raise bad_tile_format
      end
  | AOther => Raise bad_tile_format
  end.

(** The "format.json" part that [extract_pc_tile_metadata] builds from the
    reader's report: the compressed flag, the two version numbers, the copc
    flag, the record format and the record length. *)
Definition las_version_string (major_version minor_version : N) : string :=
  String.append (NilZero.string_of_uint (N.to_uint major_version))
    (String.append "." (NilZero.string_of_uint (N.to_uint minor_version))).

Definition extracted_format_json
    (compressed : bool) (major_version minor_version : N) (copc : bool)
    (dataformat_id point_length : Z) : gmap string scalar :=
  <["compression" := JStr (if compressed then "laz" else "las")]>
  (<["lasVersion" := JStr (las_version_string major_version minor_version)]>
  (<["optimization" := if copc then JStr "copc" else JNone]>
  (<["optimizationVersion" := if copc then JStr "1.0" else JNone]>
  (<["pointDataRecordFormat" := JInt dataformat_id]>
  (<["pointDataRecordLength" := JInt point_length]> ∅))))).

(** A format descriptor as the extraction or the COPC rewrite builds it:
    compression "las" or "laz", a version of digits and dots, and either no
    optimization or the optimization "copc" with its version. *)
Definition valid_format (f : gmap string scalar) : bool :=
  match f !! "format.json", f !! "compression", f !! "lasVersion",
        f !! "optimization" with
  | None, Some (JStr c), Some (JStr ver), Some o =>
      (String.eqb c "las" || String.eqb c "laz")
      && negb (String.eqb ver "") && string_forall is_version_char ver
      && match o with
         | JNone => true
         | JStr name =>
             String.eqb name "copc"
             && bool_decide (is_Some (f !! "optimizationVersion"))
         | JInt _ => false
         end
  | _, _, _, _ => false
  end.

(** The two descriptors of the round-trip examples. *)
Definition las_1_2 : gmap string scalar :=
  <["compression" := JStr "las"]>
  (<["lasVersion" := JStr "1.2"]>
  (<["optimization" := JNone]> ∅)).

Definition laz_1_4_copc : gmap string scalar :=
  <["compression" := JStr "laz"]>
  (<["lasVersion" := JStr "1.4"]>
  (<["optimization" := JStr "copc"]>
  (<["optimizationVersion" := JStr "1.0"]> ∅))).

(** The strings that the class [[sz]] matches under [re.IGNORECASE]. *)
Definition sz_letter (sz : string) : Prop :=
  sz ∈ ["s"; "S"; "z"; "Z"; long_s].

(** [s] starts with an l and an a in either case, one of [sz_letter] and a
    "-", and goes on with [group], a non-empty run of digits and dots that
    [rest] does not extend. *)
Definition las_prefixed (s group : string) : Prop :=
  exists c1 c2 sz rest,
    s = String c1 (String c2 (String.append sz (String "-"
          (String.append group rest))))
    /\ letter "l" "L" c1 = true /\ letter "a" "A" c2 = true
    /\ sz_letter sz
    /\ group ≠ EmptyString
    /\ string_forall is_version_char group = true
    /\ take_while is_version_char rest = EmptyString.

(** "la", the long s, "-1.2". *)
Definition long_s_summary : string :=
  String.append "la" (String.append long_s "-1.2").

(** Split [s] at the first occurrence of [sep]. *)
Fixpoint split_once (sep : ascii) (s : string) : option (string * string) :=
  match s with
  | EmptyString => None
  | String c rest =>
      if Ascii.eqb c sep then Some (EmptyString, rest)
      else match split_once sep rest with
           | Some (a, b) => Some (String c a, b)
           | None => None
           end
  end.

(** One token pair "<a>-<b>", both tokens non-empty, no "/" inside. *)
Definition token_pair (s : string) : bool :=
  match split_once "-" s with
  | Some (a, b) =>
      negb (String.eqb a "") && negb (String.eqb b "")
      && negb (contains "/" s)
  | None => false
  end.

(** The pattern of the specification for a summary string:
    "<compression>-<version>", then possibly
    "/<optimization>-<optimizationVersion>". *)
Definition summary_pattern (s : string) : bool :=
  match split_once "/" s with
  | Some (head, tail) => token_pair head && token_pair tail
  | None => token_pair s
  end.

(** ** Two tiles *)

(** A LAS 1.2 tile and a COPC tile in the same reference system. *)
Definition las_tile : tile_metadata :=
  TileMetadata (extracted_format_json false 1 2 false 3 34)
               [ {[ "name" := JStr "X"; "size" := JInt 8 ]} ]
               "EPSG:2193"
               {[ "name" := JStr "auckland_0_0.las" ]}.

Definition copc_tile : tile_metadata :=
  TileMetadata (extracted_format_json true 1 4 true 6 30)
               [ {[ "name" := JStr "X"; "size" := JInt 8 ]} ]
               "EPSG:2193"
               {[ "name" := JStr "auckland_0_1.copc.laz" ]}.

(** Stands for a helper of schema_util.py under a policy that never calls
    it. *)
Definition not_called {A : Type} (_ : scalar) : pyresult A :=
  Raise (ValueError "schema_util is not called under this policy").

End MetadataUtil.

(** * sno/working_copy/mysql.py *)

Module MySql.

(** ** The database behind a session *)

(** What the code reads of a dataset. *)
Record dataset : Type := Dataset {
  table_name : string;
  primary_key : string
}.

Inductive dml : Type := INSERT | UPDATE | DELETE.

#[global] Instance dml_eq_dec : EqDecision dml.
Proof. solve_decision. Defined.

(** [OLD.pk] or [NEW.pk] in a trigger body. *)
Inductive rowref : Type := OLD | NEW.

(** [CREATE TRIGGER name AFTER event ON table FOR EACH ROW
     REPLACE INTO sno_track (table_name, pk) VALUES ...]: each element of
    [trigger_values] is one parenthesised pair of the VALUES list. *)
Record trigger : Type := Trigger {
  trigger_name : string;
  trigger_event : dml;
  trigger_table : string;
  trigger_values : list (string * rowref)
}.

(** Modelled from the spec: the tracking table of table_defs.py, which is
    not part of the sources at hand; its rows are ChangeTrackingEntry
    "(tableName, primaryKeyValue)", and the pair is the table's key.  The
    state a session acts on holds the triggers, in creation order, and the
    rows of that table. *)
Record db : Type := Db {
  triggers : list trigger;
  sno_track : list (string * Z)
}.

(** Code that runs against the session: it may raise, and what it did to
    the database before raising stays done. *)
Definition sess (A : Type) : Type := db -> pyresult A * db.

#[global] Instance sess_ret : MRet sess := fun _ a s => (Ok a, s).

#[global] Instance sess_bind : MBind sess := fun _ _ k m s =>
  match m s with
  | (Ok a, s') => k a s'
  | (Raise e, s') => (Raise e, s')
  end.

Definition trigger_exists (name : string) (s : db) : bool :=
  existsb (fun t => String.eqb (trigger_name t) name) (triggers s).

(** [sess.execute("CREATE TRIGGER ...")]: the server refuses a name that is
    taken. *)
Definition execute_create_trigger (t : trigger) : sess unit := fun s =>
  if trigger_exists (trigger_name t) s then
    (Raise (DatabaseError "Trigger already exists"), s)
  else
    (Ok (), Db (triggers s ++ [t]) (sno_track s)).

(** [sess.execute("DROP TRIGGER ...")]: the server refuses a name it does
    not know. *)
Definition execute_drop_trigger (name : string) : sess unit := fun s =>
  if trigger_exists name s then
    (Ok (),
     Db (filter (fun t => trigger_name t ≠ name) (triggers s)) (sno_track s))
  else
    (Raise (DatabaseError "Trigger does not exist"), s).

(** [_quoted_trigger_name]: quoting and the schema prefix are the same for
    every name and are left out. *)
Definition _quoted_trigger_name (dataset : dataset) (trigger_type : string)
  : string :=
  String.append "sno_"
    (String.append (table_name dataset) (String.append "_" trigger_type)).

Definition _create_triggers (dataset : dataset) : sess unit :=
  let table_identifier := table_name dataset in
  _ ← execute_create_trigger
        (Trigger (_quoted_trigger_name dataset "ins") INSERT table_identifier
                 [(table_name dataset, NEW)]);
  _ ← execute_create_trigger
        (Trigger (_quoted_trigger_name dataset "upd") UPDATE table_identifier
                 [(table_name dataset, OLD); (table_name dataset, NEW)]);
  execute_create_trigger
    (Trigger (_quoted_trigger_name dataset "del") DELETE table_identifier
             [(table_name dataset, OLD)]).

Definition _drop_triggers (dataset : dataset) : sess unit :=
  _ ← execute_drop_trigger (_quoted_trigger_name dataset "ins");
  _ ← execute_drop_trigger (_quoted_trigger_name dataset "upd");
  execute_drop_trigger (_quoted_trigger_name dataset "del").

(** ** Context managers *)

(** A generator function under [@contextlib.contextmanager] whose body is
    straight-line code around a single [yield], with no [try] statement. *)
Record generator_cm : Type := GeneratorCm {
  before_yield : sess unit;
  after_yield : sess unit
}.

(** [with cm: body].  Entering runs the generator up to its [yield].  When
    the body returns, [__exit__] resumes the generator, which runs the code
    after the [yield].  When the body raises, [__exit__] throws the
    exception into the generator at the [yield]; no handler encloses the
    [yield], so the generator ends there, the code after the [yield] is not
    run, and the exception goes on to the caller. *)
Definition with_ (cm : generator_cm) (body : sess unit) : sess unit := fun s =>
  match before_yield cm s with
  | (Raise e, s1) => (Raise e, s1)
  | (Ok _, s1) =>
      match body s1 with
      | (Ok _, s2) => after_yield cm s2
      | (Raise e, s2) => (Raise e, s2)
      end
  end.

Definition _suspend_triggers (dataset : dataset) : generator_cm :=
  GeneratorCm (_drop_triggers dataset) (_create_triggers dataset).

(** The three capture triggers of the dataset are in place. *)
Definition triggers_installed (dataset : dataset) (s : db) : bool :=
  trigger_exists (_quoted_trigger_name dataset "ins") s
  && trigger_exists (_quoted_trigger_name dataset "upd") s
  && trigger_exists (_quoted_trigger_name dataset "del") s.

(** None of them is. *)
Definition triggers_dropped (dataset : dataset) (s : db) : bool :=
  negb (trigger_exists (_quoted_trigger_name dataset "ins") s)
  && negb (trigger_exists (_quoted_trigger_name dataset "upd") s)
  && negb (trigger_exists (_quoted_trigger_name dataset "del") s).

(** ** Row changes and the capture triggers *)

(** A change to one row of a table, by the row's primary key value. *)
Inductive row_change : Type :=
| Inserted (new_pk : Z)
| Updated (old_pk new_pk : Z)
| Deleted (old_pk : Z).

Definition event_of (c : row_change) : dml :=
  match c with
  | Inserted _ => INSERT
  | Updated _ _ => UPDATE
  | Deleted _ => DELETE
  end.

Definition eval_rowref (c : row_change) (r : rowref) : option Z :=
  match c, r with
  | Inserted n, NEW => Some n
  | Updated o _, OLD => Some o
  | Updated _ n, NEW => Some n
  | Deleted o, OLD => Some o
  | _, _ => None
  end.

(** [REPLACE INTO sno_track VALUES row]: a stored row with the same key is
    deleted, then the row is inserted. *)
Definition replace_into (track : list (string * Z)) (row : string * Z)
  : list (string * Z) :=
  filter (fun r => r ≠ row) track ++ [row].

(** The body of one trigger, run for one changed row. *)
Definition run_trigger (c : row_change) (track : list (string * Z))
    (t : trigger) : list (string * Z) :=
  foldl (fun track '(name, ref) =>
           match eval_rowref c ref with
           | Some pk => replace_into track (name, pk)
           | None => track
           end)
        track (trigger_values t).

(** A row of [table] changes: every trigger on the table for that event
    fires, in creation order. *)
Definition row_changed (table : string) (c : row_change) (s : db) : db :=
  Db (triggers s)
     (foldl (fun track t =>
               if String.eqb (trigger_table t) table
                  && bool_decide (trigger_event t = event_of c)
               then run_trigger c track t else track)
            (sno_track s) (triggers s)).

Definition rows_changed (table : string) (cs : list row_change) (s : db) : db :=
  foldl (fun s c => row_changed table c s) s cs.

(** The keys the triggers are to record for a change. *)
Definition recorded (table : string) (c : row_change) : list (string * Z) :=
  match c with
  | Inserted n => [(table, n)]
  | Updated o n => [(table, o); (table, n)]
  | Deleted o => [(table, o)]
  end.

Definition tracked_keys (s : db) : gset (string * Z) :=
  list_to_set (sno_track s).

Definition empty_db : db := Db [] [].

(** ** Meta items the working copy cannot hold *)

Definition _UNSUPPORTED_META_ITEMS : list string :=
  ["title"; "description"; "metadata/dataset.json"; "metadata.xml"].

Section HiddenMeta.

(** The content of a meta item. *)
Context {V : Type} `{EqDecision V}.

(** [super()._remove_hidden_meta_diffs]: the method of the base class, which
    is not part of the sources at hand; it gives back the two dicts as it
    leaves them. *)
Variable super_remove_hidden_meta_diffs :
  gmap string V -> gmap string V -> gmap string V * gmap string V.

(** The two dicts are changed in place; here they are returned. *)
Definition _remove_hidden_meta_diffs (ds_meta_items wc_meta_items : gmap string V)
  : gmap string V * gmap string V :=
  let '(ds_meta_items, wc_meta_items) :=
    super_remove_hidden_meta_diffs ds_meta_items wc_meta_items in
  let ds_meta_items :=
    foldl (fun ds key =>
             if bool_decide (is_Some (ds !! key)) then delete key ds else ds)
          ds_meta_items _UNSUPPORTED_META_ITEMS in
  let ds_meta_items :=
    foldl (fun ds key =>
             if String.prefix "crs/" key then delete key ds else ds)
          ds_meta_items (elements (dom ds_meta_items)) in
  (ds_meta_items, wc_meta_items).

(** [dict(self.meta_items(dataset))], the working copy's snapshot: the
    generator yields one pair, "schema.json" with the column dicts that the
    adapter builds from the server's catalogue. *)
Definition meta_items (schema : V) : gmap string V :=
  {[ "schema.json" := schema ]}.

(** Modelled from the spec: the key-level diff of two snapshots
    (DeltaDiff.diff_dicts, not part of the sources at hand), "a set of
    changed meta-item keys between two snapshots": the keys that one side
    lacks or that the two sides give different contents. *)
Definition diff_dicts (old new : gmap string V) : gset string :=
  filter (fun key => old !! key ≠ new !! key) (dom old ∪ dom new).

(** [not meta_diff]: the diff is empty. *)
Definition _is_meta_update_supported (meta_diff : gset string) : bool :=
  bool_decide (meta_diff = ∅).

(** Modelled from the spec: isSupportedInPlace(datasetMeta,
    workingCopyMeta), the caller of the two methods (in the base class, not
    part of the sources at hand): hide what the backend cannot show,
    "compute the remaining key-level diff", and ask the backend. *)
Definition is_supported_in_place (ds_meta_items wc_meta_items : gmap string V)
  : bool :=
  let '(ds, wc) := _remove_hidden_meta_diffs ds_meta_items wc_meta_items in
  _is_meta_update_supported (diff_dicts ds wc).

End HiddenMeta.

(** A key the backend hides: unsupported, or under "crs/". *)
Definition hidden_key (key : string) : bool :=
  bool_decide (key ∈ _UNSUPPORTED_META_ITEMS) || String.prefix "crs/" key.

(** ** A tracked table and a failing bulk operation *)

Definition roads : dataset := Dataset "roads" "fid".

(** The database once [roads] is tracked. *)
Definition roads_tracked : db := (_create_triggers roads empty_db).2.

(** A bulk operation that raises before it has changed anything. *)
Definition failing_bulk_operation : sess unit := fun s =>
  (Raise (DatabaseError "Duplicate entry for key 'PRIMARY'"), s).

(** ** A base class that hides nothing, and two snapshots *)

Definition base_hides_nothing (ds wc : gmap string string)
  : gmap string string * gmap string string := (ds, wc).

Definition schema_only : gmap string string :=
  {[ "schema.json" := "[fid, geom]" ]}.

Definition schema_and_title : gmap string string :=
  <["title" := "Roads"]> schema_only.

End MySql.

(** * Further definitions *)

(** ** Stand-ins for kart/point_cloud/schema_util.py in the examples *)

Module SchemaUtilExample.
Import MetadataUtil.

(** A lookup that sends the record formats 0 to 3 to the formats 6 and 7,
    keeps 6, 7 and 8, and knows no other. *)
Definition equivalent_copc_pdrf (pdrf : scalar) : pyresult scalar :=
  match pdrf with
  | JInt 0 | JInt 1 | JInt 6 => Ok (JInt 6)
  | JInt 2 | JInt 3 | JInt 7 => Ok (JInt 7)
  | JInt 8 => Ok (JInt 8)
  | _ => Raise (KeyError "pdrf")
  end.

Definition get_record_length_from_pdrf (pdrf : scalar) : pyresult scalar :=
  match pdrf with
  | JInt 6 => Ok (JInt 30)
  | JInt 7 => Ok (JInt 36)
  | JInt 8 => Ok (JInt 38)
  | _ => Raise (KeyError "pdrf")
  end.

Definition get_schema_from_pdrf (pdrf : scalar)
  : pyresult (list (gmap string scalar)) :=
  match pdrf with
  | JInt 6 | JInt 7 | JInt 8 =>
      Ok [ {[ "name" := JStr "X"; "size" := JInt 4 ]};
           {[ "name" := JStr "GpsTime"; "size" := JInt 8 ]} ]
  | _ => Raise (KeyError "pdrf")
  end.

(** A second tile of record format 2, with a schema of its own. *)
Definition rgb_tile : tile_metadata :=
  TileMetadata (extracted_format_json true 1 2 false 2 26)
               [ {[ "name" := JStr "Red"; "size" := JInt 2 ]} ]
               "EPSG:2193"
               {[ "name" := JStr "auckland_0_2.laz" ]}.

End SchemaUtilExample.

(** * Properties *)

(** ** snowdrop/gpkg.py *)

Section GpkgProps.
Import Gpkg.

Lemma pk_loop_found q : forall fields f,
  find is_pk_field q = Some f -> pk_loop q fields = inl (f_name f).
Proof.
  induction q as [|g q IH]; intros fields f; simpl; [discriminate|].
  unfold is_pk_field at 1. destruct (truthy (f_pk g)).
  - intros [= ->]. reflexivity.
  - apply IH.
Qed.

Lemma pk_loop_none q : forall fields,
  find is_pk_field q = None -> pk_loop q fields = inr (fields ++ q).
Proof.
  induction q as [|g q IH]; intros fields; simpl.
  - intros _. by rewrite app_nil_r.
  - unfold is_pk_field at 1. destruct (truthy (f_pk g)); [discriminate|].
    intros H. rewrite (IH _ H). by rewrite <- app_assoc.
Qed.

(** C10: on a table with at least one column, [pk] returns the name of the
    first column whose pk flag is set; with no such column it returns the
    first column's name when that column's type is exactly INTEGER and raises
    ValueError otherwise; a returned name is always that of a pk column or
    of the first column. *)
Theorem pk_first_flagged_or_integer (q : list field) (f0 : field) :
  head q = Some f0 ->
  pk q =
    match find is_pk_field q with
    | Some f => Ok (f_name f)
    | None =>
        if String.eqb (f_type f0) "INTEGER" then Ok (f_name f0)
        else Raise (ValueError no_pk_message)
    end
  /\ (forall name, pk q = Ok name ->
        exists f, f ∈ q /\ f_name f = name /\
                  (f_pk f ≠ 0%Z \/ head q = Some f)).
Proof.
  intros Hhd.
  assert (Heq : pk q =
    match find is_pk_field q with
    | Some f => Ok (f_name f)
    | None =>
        if String.eqb (f_type f0) "INTEGER" then Ok (f_name f0)
        else Raise (ValueError no_pk_message)
    end).
  { unfold pk. destruct (find is_pk_field q) as [f|] eqn:Hf.
    - by rewrite (pk_loop_found _ _ _ Hf).
    - rewrite (pk_loop_none _ _ Hf). simpl.
      destruct q as [|g q]; [discriminate|]. simpl in Hhd.
      injection Hhd as ->. reflexivity. }
  split; [exact Heq|].
  intros name. rewrite Heq.
  destruct (find is_pk_field q) as [f|] eqn:Hf.
  - intros [= <-]. apply find_some in Hf as [Hin Hpk].
    exists f. split; [by apply list_elem_of_In|]. split; [done|]. left.
    unfold is_pk_field, truthy in Hpk.
    intros Hz. rewrite Hz in Hpk. discriminate.
  - destruct (String.eqb (f_type f0) "INTEGER"); [|discriminate].
    intros [= <-]. exists f0. split.
    + destruct q; [discriminate|]. injection Hhd as ->. apply list_elem_of_here.
    + split; [done|]. by right.
Qed.

Lemma pk_first_flagged_or_integer_witness :
  pk [Field "fid" "INTEGER" 0; Field "geom" "POINT" 0] = Ok "fid"
  /\ pk [Field "name" "TEXT" 0; Field "id" "INTEGER" 1] = Ok "id".
Proof.
  split.
  - exact (proj1 (pk_first_flagged_or_integer
                    [Field "fid" "INTEGER" 0; Field "geom" "POINT" 0]
                    (Field "fid" "INTEGER" 0) eq_refl)).
  - exact (proj1 (pk_first_flagged_or_integer
                    [Field "name" "TEXT" 0; Field "id" "INTEGER" 1]
                    (Field "name" "TEXT" 0) eq_refl)).
Defined.

End GpkgProps.

(** ** kart/point_cloud/metadata_util.py: rewriting and merging *)

Section MetadataProps.
Import MetadataUtil.

Variable equivalent_copc_pdrf : scalar -> pyresult scalar.
Variable get_record_length_from_pdrf : scalar -> pyresult scalar.
Variable get_schema_from_pdrf : scalar -> pyresult (list (gmap string scalar)).

Local Abbreviation rewrite_format :=
  (rewrite_format equivalent_copc_pdrf get_record_length_from_pdrf).
Local Abbreviation rewrite_schema :=
  (rewrite_schema equivalent_copc_pdrf get_schema_from_pdrf).
Local Abbreviation merge_tile :=
  (merge_tile equivalent_copc_pdrf get_record_length_from_pdrf
              get_schema_from_pdrf).
Local Abbreviation merge_loop :=
  (merge_loop equivalent_copc_pdrf get_record_length_from_pdrf
              get_schema_from_pdrf).
Local Abbreviation incoming :=
  (incoming equivalent_copc_pdrf get_record_length_from_pdrf
            get_schema_from_pdrf).
Local Abbreviation rewrites_succeed :=
  (rewrites_succeed equivalent_copc_pdrf get_record_length_from_pdrf
                    get_schema_from_pdrf).
Local Abbreviation rewrite_and_merge_metadata :=
  (rewrite_and_merge_metadata equivalent_copc_pdrf get_record_length_from_pdrf
                              get_schema_from_pdrf).

(** *** One step of the merge *)

Lemma merge_field_other output key key' v :
  key ≠ key' -> _merge_metadata_field output key v !! key' = output !! key'.
Proof.
  intros Hne. unfold _merge_metadata_field.
  destruct (output !! key) as [[e|l]|]; repeat case_decide;
    by rewrite ?lookup_insert_ne.
Qed.

Lemma merge_field_tracks output key v seen :
  output !! key = entry_of_distinct seen ->
  _merge_metadata_field output key v !! key
  = entry_of_distinct (add_distinct seen v).
Proof.
  intros Hout. unfold _merge_metadata_field, add_distinct. rewrite Hout.
  destruct seen as [|a [|b seen]]; cbn [entry_of_distinct].
  - rewrite decide_False by apply not_elem_of_nil.
    by rewrite lookup_insert_eq.
  - destruct (decide (a = v)) as [->|Hne].
    + rewrite decide_True by apply list_elem_of_here. by rewrite Hout.
    + rewrite decide_False by (rewrite list_elem_of_singleton; congruence).
      by rewrite lookup_insert_eq.
  - destruct (decide (v ∈ a :: b :: seen)); [by rewrite Hout|].
    by rewrite lookup_insert_eq.
Qed.

(** C3: one step of [_merge_metadata_field] is the field-merge rule: an
    absent key gets the value as it is; a stored value equal to the incoming
    one is left alone; a ConflictSet gets the value appended unless it holds
    it already; any other scalar becomes the two-element ConflictSet
    [old; new]. *)
Theorem merge_metadata_field_is_rule
    (output : gmap string entry) (key : string) (v : value) :
  _merge_metadata_field output key v = field_merge_rule output key v.
Proof.
  unfold _merge_metadata_field, field_merge_rule.
  destruct (output !! key) as [[e|l]|]; [| |reflexivity].
  - destruct (decide (e = v)) as [->|Hne].
    + by rewrite decide_True.
    + rewrite decide_False; [reflexivity|]. intros [= ?]. contradiction.
  - rewrite (decide_False (P := ListOfConflicts l = Plain v)) by discriminate.
    reflexivity.
Qed.

(** *** The values kept for one key *)

Lemma add_distinct_new seen v : v ∉ seen -> add_distinct seen v = seen ++ [v].
Proof. intros H. unfold add_distinct. by rewrite decide_False. Qed.

Lemma add_distinct_old seen v : v ∈ seen -> add_distinct seen v = seen.
Proof. intros H. unfold add_distinct. by rewrite decide_True. Qed.

Lemma add_distinct_elem seen v x :
  x ∈ add_distinct seen v <-> x ∈ seen \/ x = v.
Proof.
  unfold add_distinct. case_decide as Hin.
  - split; [by left|]. intros [?| ->]; done.
  - rewrite elem_of_app, list_elem_of_singleton. reflexivity.
Qed.

Lemma add_distinct_NoDup seen v : NoDup seen -> NoDup (add_distinct seen v).
Proof.
  intros Hnd. unfold add_distinct. case_decide as Hin; [done|].
  apply NoDup_app. split; [done|]. split.
  - intros x Hx Hv. apply list_elem_of_singleton in Hv as ->. contradiction.
  - apply NoDup_singleton.
Qed.

Lemma fold_distinct_elem vs : forall seen x,
  x ∈ fold_left add_distinct vs seen <-> x ∈ seen \/ x ∈ vs.
Proof.
  induction vs as [|v vs IH]; intros seen x; simpl.
  - split; [by left|]. intros [?|H]; [done|]. by apply not_elem_of_nil in H.
  - rewrite IH, add_distinct_elem, elem_of_cons. tauto.
Qed.

Lemma fold_distinct_NoDup vs : forall seen,
  NoDup seen -> NoDup (fold_left add_distinct vs seen).
Proof.
  induction vs as [|v vs IH]; intros seen Hnd; simpl; [done|].
  apply IH. by apply add_distinct_NoDup.
Qed.

Lemma distinct_values_Permutation vs1 vs2 :
  vs1 ≡ₚ vs2 -> distinct_values vs1 ≡ₚ distinct_values vs2.
Proof.
  intros Hp. unfold distinct_values.
  apply NoDup_Permutation; try (apply fold_distinct_NoDup, NoDup_nil_2).
  intros x. rewrite !fold_distinct_elem. by rewrite Hp.
Qed.

Lemma fold_distinct_single v vs :
  Forall (fun x => x = v) vs -> fold_left add_distinct vs [v] = [v].
Proof.
  induction 1 as [|x vs -> _ IH]; simpl; [done|].
  unfold add_distinct at 2. by rewrite decide_True by apply list_elem_of_here.
Qed.

Lemma distinct_values_single v vs :
  vs ≠ [] -> Forall (fun x => x = v) vs -> distinct_values vs = [v].
Proof.
  intros Hne Hall. destruct Hall as [|x vs -> Hall]; [done|].
  unfold distinct_values. simpl. by apply fold_distinct_single.
Qed.

Lemma classify_entry_of_distinct l1 l2 :
  length l1 = length l2 ->
  classify (entry_of_distinct l1) = classify (entry_of_distinct l2).
Proof.
  destruct l1 as [|a1 [|b1 l1]], l2 as [|a2 [|b2 l2]]; simpl; done.
Qed.

Lemma entry_values_of_distinct l : entry_values (entry_of_distinct l) = l.
Proof. by destruct l as [|a [|b l]]. Qed.

(** *** The loop *)

Lemma merge_tile_inv rm out t out' :
  merge_tile rm out t = Ok out' ->
  exists f s,
    rewrite_format t rm = Ok f /\ rewrite_schema t rm = Ok s /\
    out' = _merge_metadata_field
             (_merge_metadata_field
                (_merge_metadata_field out "format.json" f) "schema.json" s)
             "crs.wkt" (VStr (crs_wkt t)).
Proof.
  unfold MetadataUtil.merge_tile.
  destruct (rewrite_format t rm) as [f|e]; [|discriminate].
  destruct (rewrite_schema t rm) as [sc|e]; [|discriminate].
  intros [= <-]. by exists f, sc.
Qed.

Lemma merge_tile_lookup rm out t out' key :
  merge_tile rm out t = Ok out' ->
  forall seen, out !! key = entry_of_distinct seen ->
  out' !! key
  = entry_of_distinct (fold_left add_distinct (incoming rm key [t]) seen).
Proof.
  intros (f & sc & Hf & Hs & ->)%merge_tile_inv seen Hseen.
  unfold MetadataUtil.incoming. simpl. rewrite Hf, Hs. simpl.
  destruct (decide (key = "format.json")) as [->|Hk1].
  { rewrite !merge_field_other by done. by apply merge_field_tracks. }
  destruct (decide (key = "schema.json")) as [->|Hk2].
  { rewrite merge_field_other by done. apply merge_field_tracks.
    by rewrite merge_field_other. }
  destruct (decide (key = "crs.wkt")) as [->|Hk3].
  { apply merge_field_tracks. by rewrite !merge_field_other. }
  by rewrite !merge_field_other.
Qed.

Lemma incoming_cons rm key t tiles :
  incoming rm key (t :: tiles) = incoming rm key [t] ++ incoming rm key tiles.
Proof. unfold MetadataUtil.incoming. by repeat case_decide. Qed.

Lemma merge_loop_lookup rm tiles : forall out r key seen,
  merge_loop rm tiles out = Ok r ->
  out !! key = entry_of_distinct seen ->
  r !! key
  = entry_of_distinct (fold_left add_distinct (incoming rm key tiles) seen).
Proof.
  induction tiles as [|t tiles IH]; intros out r key seen Hrun Hseen.
  - simpl in Hrun. injection Hrun as <-.
    unfold MetadataUtil.incoming. by repeat case_decide.
  - simpl in Hrun.
    destruct (merge_tile rm out t) as [out'|e] eqn:Ht; [|discriminate].
    simpl in Hrun. rewrite incoming_cons, fold_left_app.
    eapply IH; [exact Hrun|]. by eapply merge_tile_lookup.
Qed.

Lemma merge_loop_succeeds rm tiles : forall out r,
  merge_loop rm tiles out = Ok r -> rewrites_succeed rm tiles.
Proof.
  induction tiles as [|t tiles IH]; intros out r Hrun; [constructor|].
  simpl in Hrun.
  destruct (merge_tile rm out t) as [out'|e] eqn:Ht; [|discriminate].
  simpl in Hrun. constructor; [|by eapply IH].
  apply merge_tile_inv in Ht as (f & sc & -> & -> & _). done.
Qed.

Lemma merge_loop_returns rm tiles : forall out,
  rewrites_succeed rm tiles -> exists r, merge_loop rm tiles out = Ok r.
Proof.
  induction tiles as [|t tiles IH]; intros out Hall; simpl; [by eexists|].
  inversion Hall as [|? ? [Hf Hs] Hrest]; subst.
  unfold MetadataUtil.merge_tile.
  destruct (rewrite_format t rm) as [f|e]; [|done].
  destruct (rewrite_schema t rm) as [sc|e]; [|done].
  simpl. by apply IH.
Qed.

(** The merged record holds, under each key, the distinct incoming values
    of that key: nothing for none, the value itself for one, a
    ListOfConflicts for more. *)
Lemma rewrite_and_merge_lookup tiles rm r key :
  rewrite_and_merge_metadata tiles rm = Ok r ->
  r !! key = entry_of_distinct (distinct_values (incoming rm key tiles)).
Proof.
  intros Hrun. unfold distinct_values.
  eapply merge_loop_lookup; [exact Hrun|]. apply lookup_empty.
Qed.

(** C4: in a record returned by [rewrite_and_merge_metadata] (every tile
    was then rewritten without raising) no ListOfConflicts holds two equal
    values; a key whose incoming values are all one value stores that value
    itself, not a ListOfConflicts; and three tiles whose values under a key
    are [a], [b] and again [a] or [b], with [a] and [b] different, leave
    exactly the ListOfConflicts [[a; b]]. *)
Theorem merged_conflicts_are_distinct
    (tiles : list tile_metadata) (rm : Z) (r : gmap string entry) :
  rewrite_and_merge_metadata tiles rm = Ok r ->
  rewrites_succeed rm tiles
  /\ (forall key l, r !! key = Some (ListOfConflicts l) -> NoDup l)
  /\ (forall key v,
        incoming rm key tiles ≠ [] ->
        (forall x, x ∈ incoming rm key tiles -> x = v) ->
        r !! key = Some (Plain v))
  /\ (forall key a b c,
        incoming rm key tiles = [a; b; c] -> a ≠ b -> c = a \/ c = b ->
        r !! key = Some (ListOfConflicts [a; b])).
Proof.
  intros Hrun. split; [by eapply merge_loop_succeeds|]. split; [|split].
  - intros key l. rewrite (rewrite_and_merge_lookup _ _ _ key Hrun).
    intros Hl.
    assert (Hnd : NoDup (distinct_values (incoming rm key tiles)))
      by apply fold_distinct_NoDup, NoDup_nil_2.
    destruct (distinct_values (incoming rm key tiles)) as [|x [|y d]];
      simpl in Hl; [discriminate..|]. by injection Hl as <-.
  - intros key v Hne Hall.
    rewrite (rewrite_and_merge_lookup _ _ _ key Hrun).
    rewrite (distinct_values_single v); [done|done|]. by apply Forall_forall.
  - intros key a b c Hin Hab Hc.
    rewrite (rewrite_and_merge_lookup _ _ _ key Hrun), Hin.
    unfold distinct_values. cbn [fold_left].
    rewrite (add_distinct_new [] a) by apply not_elem_of_nil. cbn [app].
    rewrite (add_distinct_new [a] b)
      by (rewrite list_elem_of_singleton; congruence). cbn [app].
    rewrite add_distinct_old; [done|].
    destruct Hc as [-> | ->]; [apply list_elem_of_here|].
    apply list_elem_of_further, list_elem_of_here.
Qed.

Lemma incoming_Permutation rm key tiles1 tiles2 :
  tiles1 ≡ₚ tiles2 -> incoming rm key tiles1 ≡ₚ incoming rm key tiles2.
Proof.
  intros Hp. unfold MetadataUtil.incoming.
  repeat case_decide; try done; by apply Permutation_map.
Qed.

(** C5: two orderings of the same tiles either both raise or both return;
    when they return, every key is absent, scalar or conflicted in both
    records alike, and holds the same values up to their order. *)
Theorem merge_classification_order_independent
    (tiles1 tiles2 : list tile_metadata) (rm : Z) :
  tiles1 ≡ₚ tiles2 ->
  match rewrite_and_merge_metadata tiles1 rm,
        rewrite_and_merge_metadata tiles2 rm with
  | Ok r1, Ok r2 =>
      forall key,
        classify (r1 !! key) = classify (r2 !! key)
        /\ entry_values (r1 !! key) ≡ₚ entry_values (r2 !! key)
        /\ (classify (r1 !! key) ≠ Conflicted -> r1 !! key = r2 !! key)
  | Raise _, Raise _ => True
  | _, _ => False
  end.
Proof.
  intros Hp.
  destruct (rewrite_and_merge_metadata tiles1 rm) as [r1|e1] eqn:H1;
  destruct (rewrite_and_merge_metadata tiles2 rm) as [r2|e2] eqn:H2.
  - intros key.
    rewrite (rewrite_and_merge_lookup _ _ _ key H1),
            (rewrite_and_merge_lookup _ _ _ key H2).
    pose proof (distinct_values_Permutation _ _
                  (incoming_Permutation rm key _ _ Hp)) as Hd.
    split; [by apply classify_entry_of_distinct, Permutation_length|].
    split; [by rewrite !entry_values_of_distinct|].
    destruct (distinct_values (incoming rm key tiles1)) as [|x [|y d1]].
    + apply Permutation_nil_l in Hd as <-. done.
    + apply Permutation_singleton_l in Hd as ->. done.
    + simpl. done.
  - apply merge_loop_succeeds in H1.
    destruct (merge_loop_returns rm tiles2 ∅) as [r2 Hr2].
    { unfold MetadataUtil.rewrites_succeed in *. by rewrite <- Hp. }
    unfold MetadataUtil.rewrite_and_merge_metadata in H2. congruence.
  - apply merge_loop_succeeds in H2.
    destruct (merge_loop_returns rm tiles1 ∅) as [r1 Hr1].
    { unfold MetadataUtil.rewrites_succeed in *. by rewrite Hp. }
    unfold MetadataUtil.rewrite_and_merge_metadata in H1. congruence.
  - exact I.
Qed.

(** C8: a policy that holds DROP_FORMAT makes [rewrite_format] return the
    empty dict, and one that holds DROP_SCHEMA makes [rewrite_schema] return
    the empty dict, whatever the tile and whatever the other flags,
    AS_IF_CONVERTED_TO_COPC included. *)
Theorem drop_flags_win (t : tile_metadata) (rm : Z) :
  (flag_in DROP_FORMAT rm = true -> rewrite_format t rm = Ok (VDict ∅))
  /\ (flag_in DROP_SCHEMA rm = true -> rewrite_schema t rm = Ok (VDict ∅)).
Proof.
  split; intros Hflag.
  - unfold MetadataUtil.rewrite_format. by rewrite Hflag.
  - unfold MetadataUtil.rewrite_schema. by rewrite Hflag.
Qed.

End MetadataProps.

(** ** kart/point_cloud/metadata_util.py: format summaries *)

Section SummaryProps.
Import MetadataUtil.

Lemma append_cons c (a b : string) :
  String.append (String c a) b = String c (String.append a b).
Proof. reflexivity. Qed.

Lemma take_while_app p (v rest : string) :
  string_forall p v = true ->
  take_while p rest = EmptyString ->
  take_while p (String.append v rest) = v.
Proof.
  intros Hv Hrest. induction v as [|c v IH]; [done|].
  simpl in Hv. apply andb_true_iff in Hv as [Hc Hv].
  rewrite append_cons. simpl. by rewrite Hc, IH.
Qed.

Lemma take_while_forall p (s : string) :
  string_forall p (take_while p s) = true.
Proof.
  induction s as [|c s IH]; simpl; [done|].
  destruct (p c) eqn:Hc; simpl; [|done]. by rewrite Hc.
Qed.

Lemma take_while_split p (s : string) :
  exists rest, s = String.append (take_while p s) rest
               /\ take_while p rest = EmptyString.
Proof.
  induction s as [|c s (rest & Hs & Hrest)]; simpl.
  - by exists EmptyString.
  - destruct (p c) eqn:Hc.
    + exists rest. split; [|done]. rewrite append_cons. by f_equal.
    + exists (String c s). split; [done|]. cbn [take_while]. by rewrite Hc.
Qed.

Lemma match_sz_spec (s rest : string) :
  match_sz s = Some rest
  <-> exists sz, sz_letter sz /\ s = String.append sz rest.
Proof.
  unfold sz_letter. split.
  - destruct s as [|c s']; simpl; [discriminate|].
    destruct (letter "s" "S" c || letter "z" "Z" c) eqn:Hl.
    + intros [= <-]. exists (String c EmptyString). split; [|reflexivity].
      unfold letter in Hl.
      apply orb_true_iff in Hl as [Hl|Hl];
        apply orb_true_iff in Hl as [Hl|Hl];
        apply Ascii.eqb_eq in Hl as ->;
        repeat ((by apply list_elem_of_here) || apply list_elem_of_further).
    + destruct s' as [|c' s'']; [discriminate|].
      destruct (Ascii.eqb c "197" && Ascii.eqb c' "191") eqn:Hb;
        [|discriminate].
      apply andb_true_iff in Hb as [Hc Hc'].
      apply Ascii.eqb_eq in Hc as ->. apply Ascii.eqb_eq in Hc' as ->.
      intros [= <-]. exists long_s. split; [|reflexivity].
      repeat ((by apply list_elem_of_here) || apply list_elem_of_further).
  - intros (sz & Hsz & ->).
    repeat (apply elem_of_cons in Hsz as [->|Hsz]; [reflexivity|]).
    by apply elem_of_nil in Hsz.
Qed.

(** The matcher finds exactly the prefixes the pattern describes. *)
Lemma match_las_version_spec (s group : string) :
  match_las_version s = Some group <-> las_prefixed s group.
Proof.
  split.
  - destruct s as [|c1 [|c2 rest2]]; simpl; try discriminate.
    destruct (letter "l" "L" c1 && letter "a" "A" c2) eqn:Hhead;
      [|discriminate].
    apply andb_true_iff in Hhead as [H1 H2].
    destruct (match_sz rest2) as [[|c4 rest]|] eqn:Hsz; try discriminate.
    destruct (Ascii.eqb c4 "-") eqn:H4; [|discriminate].
    apply Ascii.eqb_eq in H4 as ->.
    apply match_sz_spec in Hsz as (sz & Hsz & ->).
    destruct (take_while_split is_version_char rest) as (tl & Hrest & Htl).
    pose proof (take_while_forall is_version_char rest) as Hall.
    destruct (take_while is_version_char rest) as [|g0 g] eqn:Hg;
      [discriminate|].
    intros [= <-]. exists c1, c2, sz, tl. by rewrite <- Hrest.
  - intros (c1 & c2 & sz & rest & -> & H1 & H2 & Hsz & Hne & Hall & Hrest).
    unfold match_las_version. rewrite H1, H2. cbn [andb].
    assert (Hm : match_sz (String.append sz
                   (String "-" (String.append group rest)))
                 = Some (String "-" (String.append group rest))).
    { apply match_sz_spec. by exists sz. }
    rewrite Hm. cbn [Ascii.eqb Bool.eqb].
    rewrite (take_while_app _ _ _ Hall Hrest).
    by destruct group.
Qed.

Lemma contains_app_r needle (a b : string) :
  contains needle b = true -> contains needle (String.append a b) = true.
Proof.
  intros Hb. induction a as [|c a IH]; [done|].
  rewrite append_cons. simpl. rewrite IH. apply orb_true_r.
Qed.

Lemma prefix_cons_ne a c (s1 s2 : string) :
  a ≠ c -> String.prefix (String a s1) (String c s2) = false.
Proof. intros Hne. simpl. by destruct (ascii_dec a c). Qed.

Lemma contains_copc_version (v : string) :
  string_forall is_version_char v = true -> contains "copc" v = false.
Proof.
  induction v as [|c v IH]; [done|].
  intros [Hc Hv]%andb_true_iff. cbn [contains]. rewrite (IH Hv).
  rewrite prefix_cons_ne; [done|].
  intros <-. discriminate Hc.
Qed.

Lemma append_empty_r (s : string) : String.append s EmptyString = s.
Proof. induction s as [|c s IH]; [done|]. by rewrite append_cons, IH. Qed.

Lemma valid_format_inv (f : gmap string scalar) :
  valid_format f = true ->
  exists c ver,
    f !! "format.json" = None
    /\ f !! "compression" = Some (JStr c) /\ (c = "las" \/ c = "laz")
    /\ f !! "lasVersion" = Some (JStr ver)
    /\ ver ≠ EmptyString /\ string_forall is_version_char ver = true
    /\ (f !! "optimization" = Some JNone
        \/ (f !! "optimization" = Some (JStr "copc")
            /\ exists ov, f !! "optimizationVersion" = Some ov)).
Proof.
  unfold valid_format.
  destruct (f !! "format.json"); [discriminate|].
  destruct (f !! "compression") as [[|c|]|]; try discriminate.
  destruct (f !! "lasVersion") as [[|ver|]|]; try discriminate.
  destruct (f !! "optimization") as [o|]; [|discriminate].
  intros H. apply andb_true_iff in H as [H Ho].
  apply andb_true_iff in H as [H Hall].
  apply andb_true_iff in H as [Hc Hne].
  exists c, ver. repeat split; try done.
  - apply orb_true_iff in Hc as [Hc|Hc]; apply String.eqb_eq in Hc; auto.
  - intros ->. discriminate Hne.
  - destruct o as [|name|]; [by left| |discriminate]. right.
    apply andb_true_iff in Ho as [Hname Hov].
    apply String.eqb_eq in Hname as ->.
    apply bool_decide_eq_true in Hov as [ov Hov]. split; [done|by exists ov].
Qed.

(** The summary of a valid descriptor, spelled out. *)
Lemma valid_format_summary (f : gmap string scalar) :
  valid_format f = true ->
  exists c ver tail,
    (c = "las" \/ c = "laz")
    /\ f !! "lasVersion" = Some (JStr ver)
    /\ ver ≠ EmptyString /\ string_forall is_version_char ver = true
    /\ get_format_summary (ADict f)
       = Ok (String.append (String.append c (String.append "-" ver)) tail)
    /\ ((f !! "optimization" = Some JNone /\ tail = EmptyString)
        \/ (f !! "optimization" = Some (JStr "copc")
            /\ exists ov, tail = String.append "/copc-" ov)).
Proof.
  intros (c & ver & Hfj & Hc & Hcs & Hv & Hne & Hall & Ho)%valid_format_inv.
  unfold get_format_summary, format_summary_of_dict, getitem.
  rewrite Hfj, Hc, Hv. cbn [mbind result_bind py_str].
  destruct Ho as [Ho|[Ho [ov Hov]]]; rewrite Ho; cbn [mbind result_bind py_bool].
  - exists c, ver, EmptyString. rewrite append_empty_r.
    repeat split; try done. by left.
  - rewrite Hov. cbn [mbind result_bind py_str negb String.eqb].
    exists c, ver, (String.append "/copc-" (py_str ov)).
    repeat split; try done. right. split; [done|]. by eexists.
Qed.

(** C6: on the summary of a valid descriptor, [get_las_version] gives back
    the descriptor's lasVersion and [is_copc] tells whether its optimization
    is set, which is the same as being "copc"; the two descriptors of the
    examples are summarised as "las-1.2" and "laz-1.4/copc-1.0". *)
Theorem summary_helpers_agree :
  (forall f : gmap string scalar,
     valid_format f = true ->
     exists summary ver,
       get_format_summary (ADict f) = Ok summary
       /\ f !! "lasVersion" = Some (JStr ver)
       /\ get_las_version (AStr summary) = Ok (JStr ver)
       /\ is_copc (AStr summary)
          = Ok (bool_decide (f !! "optimization" ≠ Some JNone))
       /\ (f !! "optimization" ≠ Some JNone
           <-> f !! "optimization" = Some (JStr "copc")))
  /\ get_format_summary (ADict las_1_2) = Ok "las-1.2"
  /\ get_format_summary (ADict laz_1_4_copc) = Ok "laz-1.4/copc-1.0".
Proof.
  split; [|split; reflexivity].
  intros f (c & ver & tail & Hc & Hv & Hne & Hall & Hsum & Ho)%valid_format_summary.
  eexists _, ver. split; [exact Hsum|]. split; [exact Hv|].
  assert (Hrest : take_while is_version_char tail = EmptyString).
  { destruct Ho as [[_ ->]|[_ [ov ->]]]; reflexivity. }
  split; [|split].
  - unfold get_las_version. cbn [extract_format].
    assert (Hm : match_las_version
                   (String.append (String.append c (String.append "-" ver)) tail)
                 = Some ver).
    { apply match_las_version_spec.
      destruct Hc as [-> | ->].
      - exists "l"%char, "a"%char, "s", tail. repeat split; try done.
        apply list_elem_of_here.
      - exists "l"%char, "a"%char, "z", tail. repeat split; try done.
        do 2 apply list_elem_of_further. apply list_elem_of_here. }
    by rewrite Hm.
  - unfold is_copc. cbn [extract_format]. f_equal.
    destruct Ho as [[Ho ->]|[Ho [ov ->]]].
    + rewrite append_empty_r, Ho.
      rewrite bool_decide_eq_false_2 by (intros H; by apply H).
      pose proof (contains_copc_version ver Hall) as Hver.
      destruct Hc as [-> | ->]; change (?a = false) with
        (false || (false || (false || (false || contains "copc" ver))) = false);
        by rewrite Hver.
    + rewrite Ho. rewrite bool_decide_eq_true_2 by discriminate.
      by apply contains_app_r.
  - destruct Ho as [[Ho _]|[Ho _]]; rewrite Ho; split; congruence.
Qed.

(** *** Descriptors built by the extraction are valid *)

Lemma string_forall_app p (a b : string) :
  string_forall p (String.append a b)
  = string_forall p a && string_forall p b.
Proof.
  induction a as [|c a IH]; [done|].
  rewrite append_cons. simpl. by rewrite IH, andb_assoc.
Qed.

Lemma uint_digits (d : Decimal.uint) :
  string_forall is_version_char (NilEmpty.string_of_uint d) = true.
Proof. induction d; simpl; done. Qed.

Lemma decimal_digits (d : Decimal.uint) :
  string_forall is_version_char (NilZero.string_of_uint d) = true
  /\ NilZero.string_of_uint d ≠ EmptyString.
Proof.
  destruct d; simpl; (split; [try done; apply uint_digits|done]).
Qed.

Lemma extracted_format_json_valid compressed major minor copc pdrf len :
  valid_format (extracted_format_json compressed major minor copc pdrf len)
  = true.
Proof.
  unfold valid_format, extracted_format_json.
  rewrite lookup_insert_ne by done. rewrite lookup_insert_ne by done.
  rewrite lookup_insert_ne by done. rewrite lookup_insert_ne by done.
  rewrite lookup_insert_ne by done. rewrite lookup_insert_ne by done.
  rewrite lookup_empty, lookup_insert_eq.
  rewrite lookup_insert_ne by done. rewrite lookup_insert_eq.
  rewrite lookup_insert_ne by done. rewrite lookup_insert_ne by done.
  rewrite lookup_insert_eq.
  destruct (decimal_digits (N.to_uint major)) as [Hmaj Hmaj'].
  destruct (decimal_digits (N.to_uint minor)) as [Hmin _].
  assert (Hver : string_forall is_version_char
                   (las_version_string major minor) = true).
  { unfold las_version_string. rewrite !string_forall_app, Hmaj, Hmin. done. }
  assert (Hne : String.eqb (las_version_string major minor) "" = false).
  { apply String.eqb_neq. unfold las_version_string.
    destruct (NilZero.string_of_uint (N.to_uint major)); done. }
  rewrite Hver, Hne.
  destruct compressed, copc; simpl; try done;
    apply bool_decide_eq_true;
    rewrite !lookup_insert_ne by done; by rewrite lookup_insert_eq.
Qed.

(** C7 (amended): on a str, [is_copc] never raises, it tells whether the
    str holds "copc"; [get_las_version] raises the ValueError exactly when
    the str does not start with "la" in either case, then an s or a z in
    either case or the long s that case folding takes for an s, then "-"
    and at least one digit or dot, and otherwise returns the run of digits
    and dots found there; both raise it for a value that is neither a dict
    nor a str. *)
Theorem helpers_on_strings (s : string) :
  is_copc (AStr s) = Ok (contains "copc" s)
  /\ (forall group,
        get_las_version (AStr s) = Ok (JStr group) <-> las_prefixed s group)
  /\ (get_las_version (AStr s) = Raise bad_tile_format
      <-> forall group, ~ las_prefixed s group)
  /\ is_copc AOther = Raise bad_tile_format
  /\ get_las_version AOther = Raise bad_tile_format.
Proof.
  split; [reflexivity|]. split; [|split; [|split; reflexivity]].
  - intros group. rewrite <- match_las_version_spec.
    unfold get_las_version. cbn [extract_format].
    destruct (match_las_version s); split; congruence.
  - unfold get_las_version. cbn [extract_format]. split.
    + intros Hr group Hp%match_las_version_spec. rewrite Hp in Hr.
      discriminate.
    + intros Hnone. destruct (match_las_version s) as [g|] eqn:Hm; [|done].
      apply match_las_version_spec in Hm. by apply Hnone in Hm.
Qed.

(** C7 as stated fails: "garbage" does not follow the summary pattern, yet
    [is_copc] returns on it; and [get_las_version] returns on a string that
    goes on after a well-formed start. *)
Lemma malformed_summary_not_rejected :
  summary_pattern "garbage" = false
  /\ is_copc (AStr "garbage") = Ok false
  /\ ~ raises (is_copc (AStr "garbage"))
  /\ summary_pattern "las-1.2/copc-1.0/x-y" = false
  /\ get_las_version (AStr "las-1.2/copc-1.0/x-y") = Ok (JStr "1.2")
  /\ ~ (forall s, summary_pattern s = false ->
          raises (is_copc (AStr s)) /\ raises (get_las_version (AStr s))).
Proof.
  split; [reflexivity|]. split; [reflexivity|]. split; [intros []|].
  split; [reflexivity|]. split; [reflexivity|].
  intros H. destruct (H "garbage" eq_refl) as [[] _].
Qed.

Lemma helpers_on_strings_witness :
  (forall group, ~ las_prefixed "garbage" group)
  /\ get_las_version (AStr "garbage") = Raise bad_tile_format
  /\ las_prefixed "LAZ-1.4/copc-1.0" "1.4"
  /\ get_las_version (AStr "LAZ-1.4/copc-1.0") = Ok (JStr "1.4")
  /\ las_prefixed long_s_summary "1.2"
  /\ get_las_version (AStr long_s_summary) = Ok (JStr "1.2").
Proof.
  assert (Hno : forall group, ~ las_prefixed "garbage" group).
  { intros group Hp%match_las_version_spec. discriminate Hp. }
  assert (Hyes : las_prefixed "LAZ-1.4/copc-1.0" "1.4").
  { by apply match_las_version_spec. }
  assert (Hlong : las_prefixed long_s_summary "1.2").
  { by apply match_las_version_spec. }
  split; [exact Hno|]. split.
  - exact (proj2 (proj1 (proj2 (proj2 (helpers_on_strings "garbage")))) Hno).
  - split; [exact Hyes|]. split.
    + exact (proj2 (proj1 (proj2 (helpers_on_strings "LAZ-1.4/copc-1.0"))
                      "1.4") Hyes).
    + split; [exact Hlong|].
      exact (proj2 (proj1 (proj2 (helpers_on_strings long_s_summary))
                      "1.2") Hlong).
Defined.

End SummaryProps.

Section MetadataExamples.
Import MetadataUtil.

Lemma merged_conflicts_are_distinct_witness :
  exists r,
    rewrite_and_merge_metadata not_called not_called not_called
      [las_tile; copc_tile; copc_tile] NO_REWRITE = Ok r
    /\ r !! "format.json"
       = Some (ListOfConflicts [VDict (format_json las_tile);
                                VDict (format_json copc_tile)])
    /\ r !! "crs.wkt" = Some (Plain (VStr "EPSG:2193")).
Proof.
  assert (Hok : rewrites_succeed not_called not_called not_called NO_REWRITE
                  [las_tile; copc_tile; copc_tile]).
  { apply Forall_forall. intros t _. split; exact I. }
  destruct (merge_loop_returns not_called not_called not_called NO_REWRITE
              [las_tile; copc_tile; copc_tile] ∅ Hok) as [r Hrun].
  exists r. split; [exact Hrun|].
  pose proof (merged_conflicts_are_distinct not_called not_called
                not_called [las_tile; copc_tile; copc_tile] NO_REWRITE r
                Hrun) as (_ & _ & Hscalar & Hthree).
  split.
  - apply (Hthree "format.json" _ _ (VDict (format_json copc_tile)));
      [reflexivity| |by right].
    intros Heq.
    apply (f_equal (fun v => match v with
                             | VDict d => d !! "compression"
                             | _ => None
                             end)) in Heq.
    vm_compute in Heq. discriminate Heq.
  - apply Hscalar.
    + intros Hnil. vm_compute in Hnil. discriminate Hnil.
    + intros x Hx. vm_compute in Hx.
      repeat (apply elem_of_cons in Hx as [->|Hx]; [reflexivity|]).
      by apply elem_of_nil in Hx.
Defined.

Lemma merge_classification_order_independent_witness :
  [las_tile; copc_tile] ≡ₚ [copc_tile; las_tile]
  /\ match rewrite_and_merge_metadata not_called not_called not_called
             [las_tile; copc_tile] NO_REWRITE,
           rewrite_and_merge_metadata not_called not_called not_called
             [copc_tile; las_tile] NO_REWRITE with
     | Ok r1, Ok r2 =>
         forall key,
           classify (r1 !! key) = classify (r2 !! key)
           /\ entry_values (r1 !! key) ≡ₚ entry_values (r2 !! key)
           /\ (classify (r1 !! key) ≠ Conflicted -> r1 !! key = r2 !! key)
     | Raise _, Raise _ => True
     | _, _ => False
     end.
Proof.
  split; [apply perm_swap|].
  apply (merge_classification_order_independent not_called not_called
           not_called [las_tile; copc_tile] [copc_tile; las_tile] NO_REWRITE).
  apply perm_swap.
Defined.

Lemma drop_flags_win_witness :
  flag_in DROP_FORMAT 13 = true
  /\ flag_in DROP_SCHEMA 13 = true
  /\ flag_in AS_IF_CONVERTED_TO_COPC 13 = true
  /\ rewrite_format not_called not_called las_tile 13 = Ok (VDict ∅)
  /\ rewrite_schema not_called not_called las_tile 13 = Ok (VDict ∅).
Proof.
  split; [reflexivity|]. split; [reflexivity|]. split; [reflexivity|].
  split.
  - exact (proj1 (drop_flags_win not_called not_called not_called
                    las_tile 13) eq_refl).
  - exact (proj2 (drop_flags_win not_called not_called not_called
                    las_tile 13) eq_refl).
Defined.

Lemma summary_helpers_agree_witness :
  valid_format laz_1_4_copc = true
  /\ exists summary ver,
       get_format_summary (ADict laz_1_4_copc) = Ok summary
       /\ laz_1_4_copc !! "lasVersion" = Some (JStr ver)
       /\ get_las_version (AStr summary) = Ok (JStr ver)
       /\ is_copc (AStr summary)
          = Ok (bool_decide (laz_1_4_copc !! "optimization" ≠ Some JNone))
       /\ (laz_1_4_copc !! "optimization" ≠ Some JNone
           <-> laz_1_4_copc !! "optimization" = Some (JStr "copc")).
Proof.
  split; [reflexivity|].
  exact (proj1 summary_helpers_agree laz_1_4_copc eq_refl).
Defined.

End MetadataExamples.

(** ** sno/working_copy/mysql.py: change tracking *)

Section TrackingProps.
Import MySql.

Lemma replace_into_elem (track : list (string * Z)) row x :
  x ∈ replace_into track row <-> x ∈ track \/ x = row.
Proof.
  unfold replace_into.
  rewrite elem_of_app, list_elem_of_filter, list_elem_of_singleton.
  destruct (decide (x = row)); tauto.
Qed.

Lemma replace_into_NoDup (track : list (string * Z)) row :
  NoDup track -> NoDup (replace_into track row).
Proof.
  intros Hnd. unfold replace_into. apply NoDup_app. split; [|split].
  - by apply NoDup_filter.
  - intros x [Hne _]%list_elem_of_filter ->%list_elem_of_singleton. done.
  - apply NoDup_singleton.
Qed.

Lemma append_inj_l (p a b : string) :
  String.append p a = String.append p b -> a = b.
Proof.
  induction p as [|c p IH]; [done|]. rewrite !append_cons. intros [= H].
  by apply IH.
Qed.

Lemma quoted_trigger_name_inj ds a b :
  _quoted_trigger_name ds a = _quoted_trigger_name ds b -> a = b.
Proof.
  unfold _quoted_trigger_name.
  intros H. by do 3 apply append_inj_l in H.
Qed.

Lemma quoted_trigger_name_eqb ds a b :
  String.eqb (_quoted_trigger_name ds a) (_quoted_trigger_name ds b)
  = String.eqb a b.
Proof.
  destruct (String.eqb_spec a b) as [->|Hne].
  - apply String.eqb_refl.
  - apply String.eqb_neq. intros H. by apply quoted_trigger_name_inj in H.
Qed.

Lemma trigger_exists_app name l t track :
  trigger_exists name (Db (l ++ [t]) track)
  = trigger_exists name (Db l track) || String.eqb (trigger_name t) name.
Proof.
  unfold trigger_exists. simpl. rewrite existsb_app. simpl.
  by rewrite orb_false_r.
Qed.

Lemma trigger_exists_filter name dropped l track :
  trigger_exists name
    (Db (filter (fun t => trigger_name t ≠ dropped) l) track)
  = negb (String.eqb name dropped) && trigger_exists name (Db l track).
Proof.
  unfold trigger_exists. simpl. induction l as [|t l IH]; simpl.
  - by rewrite andb_false_r.
  - rewrite filter_cons. case_decide as Hd; simpl.
    + rewrite IH. destruct (String.eqb_spec (trigger_name t) name) as [<-|];
        simpl; [|done].
      apply String.eqb_neq in Hd. rewrite Hd. done.
    + rewrite IH, Hd.
      destruct (String.eqb_spec dropped name) as [->|Hne]; simpl.
      * by rewrite String.eqb_refl.
      * done.
Qed.

Lemma installed_inv ds s :
  triggers_installed ds s = true ->
  trigger_exists (_quoted_trigger_name ds "ins") s = true
  /\ trigger_exists (_quoted_trigger_name ds "upd") s = true
  /\ trigger_exists (_quoted_trigger_name ds "del") s = true.
Proof.
  unfold triggers_installed.
  intros [[H1 H2]%andb_true_iff H3]%andb_true_iff. done.
Qed.

Lemma dropped_inv ds s :
  triggers_dropped ds s = true ->
  trigger_exists (_quoted_trigger_name ds "ins") s = false
  /\ trigger_exists (_quoted_trigger_name ds "upd") s = false
  /\ trigger_exists (_quoted_trigger_name ds "del") s = false.
Proof.
  unfold triggers_dropped.
  intros [[H1 H2]%andb_true_iff H3]%andb_true_iff.
  by apply negb_true_iff in H1, H2, H3.
Qed.

Lemma sess_bind_ok {A B} (m : sess A) (k : A -> sess B) s a s' :
  m s = (Ok a, s') -> (m ≫= k) s = k a s'.
Proof. intros H. unfold mbind, sess_bind. by rewrite H. Qed.

Lemma execute_drop_trigger_ok name l track :
  trigger_exists name (Db l track) = true ->
  execute_drop_trigger name (Db l track)
  = (Ok (), Db (filter (fun t => trigger_name t ≠ name) l) track).
Proof. intros H. unfold execute_drop_trigger. by rewrite H. Qed.

Lemma execute_create_trigger_ok t l track :
  trigger_exists (trigger_name t) (Db l track) = false ->
  execute_create_trigger t (Db l track) = (Ok (), Db (l ++ [t]) track).
Proof. intros H. unfold execute_create_trigger. by rewrite H. Qed.

(** Dropping the triggers of a tracked table succeeds and leaves none. *)
Lemma drop_triggers_ok ds s :
  triggers_installed ds s = true ->
  exists s1,
    _drop_triggers ds s = (Ok (), s1)
    /\ sno_track s1 = sno_track s
    /\ triggers_dropped ds s1 = true.
Proof.
  intros (Hi & Hu & Hd)%installed_inv. destruct s as [l track].
  unfold _drop_triggers.
  erewrite sess_bind_ok by (by apply execute_drop_trigger_ok).
  erewrite sess_bind_ok.
  2:{ apply execute_drop_trigger_ok.
      by rewrite trigger_exists_filter, quoted_trigger_name_eqb, Hu. }
  rewrite execute_drop_trigger_ok.
  2:{ by rewrite !trigger_exists_filter, !quoted_trigger_name_eqb, Hd. }
  eexists. split; [reflexivity|]. split; [reflexivity|].
  unfold triggers_dropped.
  rewrite !trigger_exists_filter, !quoted_trigger_name_eqb. reflexivity.
Qed.

(** Creating them where there is none succeeds and installs all three. *)
Lemma create_triggers_ok ds s :
  triggers_dropped ds s = true ->
  exists s3,
    _create_triggers ds s = (Ok (), s3)
    /\ sno_track s3 = sno_track s
    /\ triggers_installed ds s3 = true
    /\ triggers s3
       = triggers s
         ++ [Trigger (_quoted_trigger_name ds "ins") INSERT (table_name ds)
                     [(table_name ds, NEW)];
             Trigger (_quoted_trigger_name ds "upd") UPDATE (table_name ds)
                     [(table_name ds, OLD); (table_name ds, NEW)];
             Trigger (_quoted_trigger_name ds "del") DELETE (table_name ds)
                     [(table_name ds, OLD)]].
Proof.
  intros (Hi & Hu & Hd)%dropped_inv. destruct s as [l track].
  unfold _create_triggers.
  erewrite sess_bind_ok by (by apply execute_create_trigger_ok).
  erewrite sess_bind_ok.
  2:{ apply execute_create_trigger_ok. cbn [trigger_name].
      rewrite trigger_exists_app. cbn [trigger_name].
      by rewrite quoted_trigger_name_eqb, Hu. }
  rewrite execute_create_trigger_ok.
  2:{ cbn [trigger_name]. rewrite !trigger_exists_app. cbn [trigger_name].
      by rewrite !quoted_trigger_name_eqb, Hd. }
  eexists. split; [reflexivity|]. split; [reflexivity|]. split.
  - unfold triggers_installed.
    rewrite !trigger_exists_app. cbn [trigger_name].
    rewrite !String.eqb_refl.
    by rewrite !orb_true_r.
  - cbn [triggers]. by rewrite <- !app_assoc.
Qed.

Lemma trigger_exists_same_triggers name s s' :
  triggers s' = triggers s -> trigger_exists name s' = trigger_exists name s.
Proof. unfold trigger_exists. by intros ->. Qed.

(** C1 (amended): on a tracked table the scope drops the three triggers;
    when the bulk operation returns, having left the triggers alone, the
    scope recreates all three; when the bulk operation raises, the scope
    ends with that exception in the state the operation left, the triggers
    still dropped. *)
Theorem suspend_triggers_recreates_after_normal_exit
    (ds : dataset) (body : sess unit) (s : db) :
  triggers_installed ds s = true ->
  exists s1,
    _drop_triggers ds s = (Ok (), s1)
    /\ triggers_dropped ds s1 = true
    /\ match body s1 with
       | (Ok _, s2) =>
           triggers s2 = triggers s1 ->
           exists s3,
             with_ (_suspend_triggers ds) body s = (Ok (), s3)
             /\ triggers_installed ds s3 = true
             /\ sno_track s3 = sno_track s2
       | (Raise e, s2) =>
           with_ (_suspend_triggers ds) body s = (Raise e, s2)
           /\ (triggers s2 = triggers s1 -> triggers_dropped ds s2 = true)
       end.
Proof.
  intros (s1 & Hdrop & _ & Hdropped)%drop_triggers_ok.
  exists s1. split; [done|]. split; [done|].
  unfold with_, _suspend_triggers. cbn [before_yield after_yield].
  rewrite Hdrop. destruct (body s1) as [[[]|e] s2].
  - intros Hsame.
    assert (Hd2 : triggers_dropped ds s2 = true).
    { unfold triggers_dropped in *.
      by rewrite !(trigger_exists_same_triggers _ s1 s2). }
    destruct (create_triggers_ok ds s2 Hd2) as (s3 & Hc & Htrack & Hinst & _).
    by exists s3.
  - split; [done|]. intros Hsame. unfold triggers_dropped in *.
    by rewrite !(trigger_exists_same_triggers _ s1 s2).
Qed.

(** C1 as stated fails: with [roads] tracked, a bulk operation that raises
    inside the scope ends the scope with its exception and without the
    triggers. *)
Lemma suspend_triggers_not_restored_on_raise :
  triggers_installed roads roads_tracked = true
  /\ (with_ (_suspend_triggers roads) failing_bulk_operation roads_tracked).1
     = Raise (DatabaseError "Duplicate entry for key 'PRIMARY'")
  /\ triggers_installed roads
       (with_ (_suspend_triggers roads) failing_bulk_operation roads_tracked).2
     = false
  /\ triggers
       (with_ (_suspend_triggers roads) failing_bulk_operation roads_tracked).2
     = [].
Proof. repeat split; vm_compute; reflexivity. Qed.

Lemma suspend_triggers_recreates_after_normal_exit_witness :
  triggers_installed roads roads_tracked = true
  /\ exists s1,
       _drop_triggers roads roads_tracked = (Ok (), s1)
       /\ triggers_dropped roads s1 = true
       /\ with_ (_suspend_triggers roads) failing_bulk_operation roads_tracked
          = (Raise (DatabaseError "Duplicate entry for key 'PRIMARY'"), s1).
Proof.
  split; [reflexivity|].
  destruct (suspend_triggers_recreates_after_normal_exit
              roads failing_bulk_operation roads_tracked eq_refl)
    as (s1 & Hdrop & Hdropped & Hbody).
  exists s1. split; [exact Hdrop|]. split; [exact Hdropped|].
  exact (proj1 Hbody).
Defined.

(** *** The capture triggers *)

Lemma row_changed_tracked ds s c :
  triggers s = (_create_triggers ds empty_db).2.(triggers) ->
  sno_track (row_changed (table_name ds) c s)
  = foldl replace_into (sno_track s) (recorded (table_name ds) c).
Proof.
  destruct (create_triggers_ok ds empty_db eq_refl) as (s0 & Hc & _ & _ & Ht).
  rewrite Hc. cbn [snd]. rewrite Ht. cbn [triggers empty_db app].
  intros Hs. unfold row_changed. rewrite Hs.
  cbn [foldl sno_track trigger_table trigger_event].
  rewrite String.eqb_refl.
  destruct c; reflexivity.
Qed.

Lemma foldl_replace_into_elem rows : forall track x,
  x ∈ foldl replace_into track rows <-> x ∈ track \/ x ∈ rows.
Proof.
  induction rows as [|r rows IH]; intros track x; simpl.
  - rewrite elem_of_nil. tauto.
  - rewrite IH, replace_into_elem, elem_of_cons. tauto.
Qed.

Lemma foldl_replace_into_NoDup rows : forall track,
  NoDup track -> NoDup (foldl replace_into track rows).
Proof.
  induction rows as [|r rows IH]; intros track Hnd; simpl; [done|].
  by apply IH, replace_into_NoDup.
Qed.

(** C9: creating the triggers on an untracked table succeeds; from then on
    a change to a row adds to the tracked keys exactly the keys it is to
    record (the new key of an insert, the old and the new key of an update,
    the old key of a delete) and never stores a key twice, so that
    recording keys that are all present changes nothing but the order of
    the rows; inserting key 5 and then changing it to 7 leaves the rows
    (table, 5) and (table, 7). *)
Theorem capture_triggers_record_keys (ds : dataset) :
  exists s0,
    _create_triggers ds empty_db = (Ok (), s0)
    /\ triggers_installed ds s0 = true
    /\ sno_track s0 = []
    /\ (forall s c,
          triggers s = triggers s0 ->
          tracked_keys (row_changed (table_name ds) c s)
          = tracked_keys s ∪ list_to_set (recorded (table_name ds) c)
          /\ (NoDup (sno_track s) ->
              NoDup (sno_track (row_changed (table_name ds) c s)))
          /\ (NoDup (sno_track s) ->
              (forall k, k ∈ recorded (table_name ds) c -> k ∈ sno_track s) ->
              sno_track (row_changed (table_name ds) c s) ≡ₚ sno_track s))
    /\ sno_track
         (rows_changed (table_name ds) [Inserted 5; Updated 5 7] s0)
       = [(table_name ds, 5%Z); (table_name ds, 7%Z)]
    /\ tracked_keys
         (rows_changed (table_name ds) [Inserted 5; Updated 5 7] s0)
       = {[ (table_name ds, 5%Z); (table_name ds, 7%Z) ]}.
Proof.
  destruct (create_triggers_ok ds empty_db eq_refl)
    as (s0 & Hc & Htrack & Hinst & Ht).
  exists s0. split; [done|]. split; [done|]. split; [done|].
  assert (Hs0 : triggers s0 = (_create_triggers ds empty_db).2.(triggers))
    by (by rewrite Hc).
  assert (Hrun : sno_track
            (rows_changed (table_name ds) [Inserted 5; Updated 5 7] s0)
          = [(table_name ds, 5%Z); (table_name ds, 7%Z)]).
  { unfold rows_changed. cbn [foldl].
    rewrite row_changed_tracked by (cbn [row_changed triggers]; exact Hs0).
    rewrite row_changed_tracked by exact Hs0.
    rewrite Htrack. cbn [recorded foldl empty_db sno_track].
    unfold replace_into. cbn [filter list_filter app].
    rewrite decide_False by (intros H; by apply H).
    cbn [app]. rewrite filter_cons, filter_nil.
    rewrite decide_True by (intros [= ?]). done. }
  split; [|split; [exact Hrun|]].
  - intros s c Hs. rewrite Hs0 in Hs.
    pose proof (row_changed_tracked ds s c Hs) as Hrow.
    split; [|split].
    + unfold tracked_keys. rewrite Hrow. apply set_eq. intros x.
      rewrite elem_of_union, !elem_of_list_to_set.
      apply foldl_replace_into_elem.
    + intros Hnd. rewrite Hrow. by apply foldl_replace_into_NoDup.
    + intros Hnd Hin. rewrite Hrow.
      apply NoDup_Permutation; [by apply foldl_replace_into_NoDup|done|].
      intros x. rewrite foldl_replace_into_elem. split; [|by left].
      intros [?|?]; [done|by apply Hin].
  - unfold tracked_keys. rewrite Hrun. apply set_eq. intros x.
    rewrite elem_of_list_to_set, elem_of_union, !elem_of_singleton.
    rewrite elem_of_cons, list_elem_of_singleton. reflexivity.
Qed.

Lemma capture_triggers_record_keys_witness :
  exists s0,
    _create_triggers roads empty_db = (Ok (), s0)
    /\ tracked_keys (rows_changed "roads" [Inserted 5; Updated 5 7] s0)
       = {[ ("roads", 5%Z); ("roads", 7%Z) ]}
    /\ tracked_keys (row_changed "roads" (Deleted 9) s0)
       = tracked_keys s0 ∪ {[ ("roads", 9%Z) ]}.
Proof.
  destruct (capture_triggers_record_keys roads)
    as (s0 & Hc & _ & _ & Hstep & _ & Hkeys).
  exists s0. split; [exact Hc|]. split; [exact Hkeys|].
  change "roads" with (table_name roads) at 1.
  rewrite (proj1 (Hstep s0 (Deleted 9) eq_refl)).
  cbn [recorded table_name roads list_to_set]. by rewrite union_empty_r_L.
Defined.

End TrackingProps.

(** ** sno/working_copy/mysql.py: hidden meta items *)

Section HiddenMetaProps.
Import MySql.

Context {V : Type} `{EqDecision V}.

Variable super_remove_hidden_meta_diffs :
  gmap string V -> gmap string V -> gmap string V * gmap string V.

Local Abbreviation _remove_hidden_meta_diffs :=
  (_remove_hidden_meta_diffs super_remove_hidden_meta_diffs).
Local Abbreviation is_supported_in_place :=
  (is_supported_in_place super_remove_hidden_meta_diffs).

Lemma unsupported_loop_lookup (keys : list string) :
  forall (ds : gmap string V) k,
    foldl (fun ds key =>
             if bool_decide (is_Some (ds !! key)) then delete key ds else ds)
          ds keys !! k
    = if bool_decide (k ∈ keys) then None else ds !! k.
Proof.
  induction keys as [|key keys IH]; intros ds k; cbn [foldl].
  - by rewrite bool_decide_eq_false_2 by apply not_elem_of_nil.
  - rewrite IH.
    assert (Hstep :
      (if bool_decide (is_Some (ds !! key)) then delete key ds else ds)
      = delete key ds).
    { case_bool_decide as Hs; [done|]. symmetry. apply delete_id.
      by apply eq_None_not_Some. }
    rewrite Hstep.
    destruct (decide (k = key)) as [->|Hne].
    + rewrite (bool_decide_eq_true_2 (key ∈ key :: keys))
        by apply list_elem_of_here.
      rewrite lookup_delete_eq. by destruct (bool_decide (key ∈ keys)).
    + rewrite lookup_delete_ne by done.
      assert (Hk : bool_decide (k ∈ key :: keys) = bool_decide (k ∈ keys)).
      { apply bool_decide_ext. rewrite elem_of_cons.
        split; [intros [?|?]; done|by right]. }
      by rewrite Hk.
Qed.

Lemma crs_loop_lookup (keys : list string) :
  forall (ds : gmap string V) k,
    foldl (fun ds key =>
             if String.prefix "crs/" key then delete key ds else ds)
          ds keys !! k
    = if String.prefix "crs/" k && bool_decide (k ∈ keys) then None
      else ds !! k.
Proof.
  induction keys as [|key keys IH]; intros ds k; cbn [foldl].
  - rewrite bool_decide_eq_false_2 by apply not_elem_of_nil.
    by rewrite andb_false_r.
  - rewrite IH. destruct (decide (k = key)) as [->|Hne].
    + rewrite (bool_decide_eq_true_2 (key ∈ key :: keys))
        by apply list_elem_of_here.
      rewrite andb_true_r.
      destruct (String.prefix "crs/" key) eqn:Hp; simpl.
      * rewrite lookup_delete_eq. by destruct (bool_decide _).
      * done.
    + assert (Hk : bool_decide (k ∈ key :: keys) = bool_decide (k ∈ keys)).
      { apply bool_decide_ext. rewrite elem_of_cons.
        split; [intros [?|?]; done|by right]. }
      rewrite Hk.
      destruct (String.prefix "crs/" key); [|done].
      by rewrite lookup_delete_ne.
Qed.

(** What the method leaves of the two dicts. *)
Lemma remove_hidden_meta_diffs_lookup (ds wc : gmap string V) :
  (forall key,
     (_remove_hidden_meta_diffs ds wc).1 !! key
     = if hidden_key key then None
       else (super_remove_hidden_meta_diffs ds wc).1 !! key)
  /\ (_remove_hidden_meta_diffs ds wc).2
     = (super_remove_hidden_meta_diffs ds wc).2.
Proof.
  unfold MySql._remove_hidden_meta_diffs.
  destruct (super_remove_hidden_meta_diffs ds wc) as [ds0 wc0].
  cbn [fst snd]. split; [|done]. intros key. unfold hidden_key.
  generalize _UNSUPPORTED_META_ITEMS. intros keys.
  rewrite crs_loop_lookup, unsupported_loop_lookup.
  destruct (decide (key ∈ keys)) as [Hkeys|Hkeys].
  - rewrite !(bool_decide_eq_true_2 _ Hkeys). cbn [orb].
    by destruct (_ && _).
  - rewrite !(bool_decide_eq_false_2 _ Hkeys). cbn [orb].
    destruct (String.prefix "crs/" key); cbn [andb]; [|done].
    case_bool_decide as Hin; [done|].
    rewrite elem_of_elements, elem_of_dom in Hin.
    rewrite unsupported_loop_lookup in Hin.
    rewrite (bool_decide_eq_false_2 _ Hkeys) in Hin.
    by rewrite <- eq_None_not_Some in Hin.
Qed.

Lemma diff_dicts_empty (old new : gmap string V) :
  diff_dicts old new = ∅ <-> old = new.
Proof.
  unfold diff_dicts. split.
  - intros Hempty. apply map_eq. intros key.
    destruct (decide (old !! key = new !! key)) as [|Hne]; [done|].
    assert (Hin : key ∈ filter (fun key => old !! key ≠ new !! key)
                               (dom old ∪ dom new)).
    { apply elem_of_filter. split; [done|].
      rewrite elem_of_union, !elem_of_dom.
      destruct (old !! key) eqn:Ho; [left; by eexists|].
      destruct (new !! key) eqn:Hn; [right; by eexists|]. done. }
    rewrite Hempty in Hin. by apply elem_of_empty in Hin.
  - intros ->. apply set_eq. intros key.
    rewrite elem_of_filter. split; [intros [Hne _]; done|].
    intros Hin. by apply elem_of_empty in Hin.
Qed.

Lemma elem_of_diff_dicts (old new : gmap string V) key :
  key ∈ diff_dicts old new <-> old !! key ≠ new !! key.
Proof.
  unfold diff_dicts. rewrite elem_of_filter, elem_of_union, !elem_of_dom.
  split; [by intros [? _]|]. intros Hne. split; [done|].
  destruct (old !! key) eqn:Ho; [left; by eexists|].
  destruct (new !! key) eqn:Hn; [right; by eexists|]. done.
Qed.

(** The working copy's snapshot, as [meta_items] builds it, holds no
    hidden key. *)
Lemma meta_items_holds_no_hidden_key (schema : V) key :
  hidden_key key = true -> meta_items schema !! key = None.
Proof.
  intros Hh. unfold meta_items.
  destruct (decide (key = "schema.json")) as [->|Hne]; [discriminate Hh|].
  by rewrite lookup_singleton_ne.
Qed.

(** C2: on snapshots as the method gets them (the working copy's snapshot,
    which [meta_items] builds with the one key "schema.json", holds no
    hidden key when the base class has had its turn) neither snapshot holds
    an unsupported key or a key under "crs/" afterwards, everything else
    being left as it was; the update is reported as supported in place
    exactly when the diff of what remains is empty, which is exactly when
    the two snapshots differ on hidden keys only. *)
Theorem hidden_meta_removed_from_both_sides (ds wc : gmap string V) :
  let ds0 := (super_remove_hidden_meta_diffs ds wc).1 in
  let wc0 := (super_remove_hidden_meta_diffs ds wc).2 in
  let ds1 := (_remove_hidden_meta_diffs ds wc).1 in
  let wc1 := (_remove_hidden_meta_diffs ds wc).2 in
  (forall key, hidden_key key = true -> wc0 !! key = None) ->
  (forall key, ds1 !! key = if hidden_key key then None else ds0 !! key)
  /\ (forall key, wc1 !! key = if hidden_key key then None else wc0 !! key)
  /\ (is_supported_in_place ds wc = true <-> diff_dicts ds1 wc1 = ∅)
  /\ (is_supported_in_place ds wc = true
      <-> forall key, key ∈ diff_dicts ds0 wc0 -> hidden_key key = true).
Proof.
  intros ds0 wc0 ds1 wc1 Hwc_hidden.
  destruct (remove_hidden_meta_diffs_lookup ds wc) as [Hds Hwc].
  fold ds0 ds1 in Hds. fold wc0 wc1 in Hwc.
  assert (Hwc1 : forall key,
            wc1 !! key = if hidden_key key then None else wc0 !! key).
  { intros key. rewrite Hwc. destruct (hidden_key key) eqn:Hh; [|done].
    by apply Hwc_hidden. }
  assert (Hsup : is_supported_in_place ds wc = true
                 <-> diff_dicts ds1 wc1 = ∅).
  { unfold MySql.is_supported_in_place, ds1, wc1.
    destruct (_remove_hidden_meta_diffs ds wc) as [a b]. cbn [fst snd].
    unfold _is_meta_update_supported. apply bool_decide_eq_true. }
  split; [exact Hds|]. split; [exact Hwc1|]. split; [exact Hsup|].
  rewrite Hsup, diff_dicts_empty. split.
  - intros Heq key Hin%elem_of_diff_dicts.
    destruct (hidden_key key) eqn:Hh; [done|]. exfalso. apply Hin.
    pose proof (Hds key) as Hd. pose proof (Hwc1 key) as Hw.
    rewrite Hh in Hd, Hw. by rewrite <- Hd, <- Hw, Heq.
  - intros Hdiff. apply map_eq. intros key. rewrite Hds, Hwc1.
    destruct (hidden_key key) eqn:Hh; [done|].
    destruct (decide (ds0 !! key = wc0 !! key)) as [|Hne]; [done|].
    apply elem_of_diff_dicts, Hdiff in Hne. congruence.
Qed.

End HiddenMetaProps.

Section HiddenMetaExamples.
Import MySql.

Lemma hidden_meta_removed_from_both_sides_witness :
  (forall key, hidden_key key = true ->
     meta_items "[fid, geom]" !! key = None)
  /\ (forall key,
        key ∈ diff_dicts schema_and_title (meta_items "[fid, geom]") ->
        hidden_key key = true)
  /\ is_supported_in_place base_hides_nothing
       schema_and_title (meta_items "[fid, geom]") = true.
Proof.
  pose proof (meta_items_holds_no_hidden_key "[fid, geom]") as H1.
  assert (H2 : forall key,
            key ∈ diff_dicts schema_and_title (meta_items "[fid, geom]") ->
            hidden_key key = true).
  { intros key Hin%elem_of_diff_dicts. unfold schema_and_title in Hin.
    destruct (decide (key = "title")) as [->|Hne]; [reflexivity|].
    by rewrite lookup_insert_ne in Hin. }
  split; [exact H1|]. split; [exact H2|].
  exact (proj2 (proj2 (proj2 (proj2
    (hidden_meta_removed_from_both_sides base_hides_nothing
       schema_and_title (meta_items "[fid, geom]") H1)))) H2).
Defined.

End HiddenMetaExamples.

(** * Further properties *)

(** ** kart/point_cloud/metadata_util.py: laws of the merge *)

Section MergeLaws.
Import MetadataUtil.

Variable equivalent_copc_pdrf : scalar -> pyresult scalar.
Variable get_record_length_from_pdrf : scalar -> pyresult scalar.
Variable get_schema_from_pdrf : scalar -> pyresult (list (gmap string scalar)).

Local Abbreviation rewrite_format :=
  (rewrite_format equivalent_copc_pdrf get_record_length_from_pdrf).
Local Abbreviation rewrite_schema :=
  (rewrite_schema equivalent_copc_pdrf get_schema_from_pdrf).
Local Abbreviation merge_tile :=
  (merge_tile equivalent_copc_pdrf get_record_length_from_pdrf
              get_schema_from_pdrf).
Local Abbreviation merge_loop :=
  (merge_loop equivalent_copc_pdrf get_record_length_from_pdrf
              get_schema_from_pdrf).
Local Abbreviation incoming :=
  (incoming equivalent_copc_pdrf get_record_length_from_pdrf
            get_schema_from_pdrf).
Local Abbreviation rewrites_succeed :=
  (rewrites_succeed equivalent_copc_pdrf get_record_length_from_pdrf
                    get_schema_from_pdrf).
Local Abbreviation rewrite_and_merge_metadata :=
  (rewrite_and_merge_metadata equivalent_copc_pdrf get_record_length_from_pdrf
                              get_schema_from_pdrf).

Lemma incoming_length rm key tiles :
  key ∈ ["format.json"; "schema.json"; "crs.wkt"] ->
  length (incoming rm key tiles) = length tiles.
Proof.
  intros Hkey. unfold MetadataUtil.incoming.
  repeat case_decide; rewrite ?length_map; try done.
  repeat (apply elem_of_cons in Hkey as [->|Hkey]; [done|]).
  by apply elem_of_nil in Hkey.
Qed.

Lemma incoming_other rm key tiles :
  key ∉ ["format.json"; "schema.json"; "crs.wkt"] ->
  incoming rm key tiles = [].
Proof.
  intros Hkey. unfold MetadataUtil.incoming.
  repeat case_decide; try done; subst; exfalso; apply Hkey;
    repeat ((by apply list_elem_of_here) || apply list_elem_of_further).
Qed.

Lemma distinct_values_nil_inv vs : distinct_values vs = [] -> vs = [].
Proof.
  destruct vs as [|v vs]; [done|]. intros Hd. exfalso.
  assert (Hin : v ∈ distinct_values (v :: vs)).
  { apply fold_distinct_elem. right. apply list_elem_of_here. }
  rewrite Hd in Hin. by apply elem_of_nil in Hin.
Qed.

Lemma entry_of_distinct_is_Some l : l ≠ [] -> is_Some (entry_of_distinct l).
Proof. destruct l as [|a [|b l]]; [done| |]; intros _; by eexists. Qed.

(** X1: a returned record is empty when there was no tile, and otherwise
    has exactly the keys "format.json", "schema.json" and "crs.wkt":
    nothing of a tile's own "tile" part gets into it. *)
Theorem merged_record_keys
    (tiles : list tile_metadata) (rm : Z) (r : gmap string entry) :
  rewrite_and_merge_metadata tiles rm = Ok r ->
  dom r = match tiles with
          | [] => ∅
          | _ :: _ => {[ "format.json"; "schema.json"; "crs.wkt" ]}
          end.
Proof.
  intros Hrun. apply set_eq. intros key. rewrite elem_of_dom.
  rewrite (rewrite_and_merge_lookup _ _ _ _ _ _ key Hrun).
  destruct (decide (key ∈ ["format.json"; "schema.json"; "crs.wkt"]))
    as [Hkey|Hkey].
  - pose proof (incoming_length rm key tiles Hkey) as Hlen.
    destruct tiles as [|t tiles].
    + destruct (incoming rm key []); [|done]. split; [by intros []|].
      intros H. by apply elem_of_empty in H.
    + split.
      * intros _. rewrite !elem_of_union, !elem_of_singleton.
        repeat (apply elem_of_cons in Hkey as [->|Hkey]; [tauto|]).
        by apply elem_of_nil in Hkey.
      * intros _. apply entry_of_distinct_is_Some.
        intros Hd%distinct_values_nil_inv. by rewrite Hd in Hlen.
  - rewrite (incoming_other rm key tiles Hkey). split; [by intros []|].
    intros Hin. exfalso. apply Hkey. destruct tiles.
    + by apply elem_of_empty in Hin.
    + rewrite !elem_of_union, !elem_of_singleton in Hin.
      destruct Hin as [[-> | ->] | ->];
        repeat ((by apply list_elem_of_here) || apply list_elem_of_further).
Qed.

(** *** Without rewriting *)

Lemma merge_field_seen output key v :
  v ∈ entry_values (output !! key) ->
  _merge_metadata_field output key v = output.
Proof.
  unfold _merge_metadata_field.
  destruct (output !! key) as [[e|l]|] eqn:Hk; simpl.
  - intros ->%list_elem_of_singleton. by rewrite decide_True.
  - intros Hin. by rewrite decide_True.
  - intros Hin. by apply elem_of_nil in Hin.
Qed.

Lemma merge_loop_app rm tiles1 : forall tiles2 out,
  merge_loop rm (tiles1 ++ tiles2) out
  = merge_loop rm tiles1 out ≫= merge_loop rm tiles2.
Proof.
  induction tiles1 as [|t tiles1 IH]; intros tiles2 out; [done|].
  simpl. destruct (merge_tile rm out t) as [out'|e]; [|done].
  simpl. apply IH.
Qed.

(** Merging a tile whose three values are stored already changes nothing. *)
Lemma merge_tile_seen rm out t f sc :
  rewrite_format t rm = Ok f -> rewrite_schema t rm = Ok sc ->
  f ∈ entry_values (out !! "format.json") ->
  sc ∈ entry_values (out !! "schema.json") ->
  VStr (crs_wkt t) ∈ entry_values (out !! "crs.wkt") ->
  merge_tile rm out t = Ok out.
Proof.
  intros Hf Hs Hfin Hsin Hcin. unfold MetadataUtil.merge_tile.
  rewrite Hf. simpl. rewrite (merge_field_seen _ _ _ Hfin).
  rewrite Hs. simpl. rewrite (merge_field_seen _ _ _ Hsin).
  by rewrite (merge_field_seen _ _ _ Hcin).
Qed.

Lemma rewrite_format_no_rewrite t :
  rewrite_format t NO_REWRITE = Ok (VDict (format_json t)).
Proof. reflexivity. Qed.

Lemma rewrite_schema_no_rewrite t :
  rewrite_schema t NO_REWRITE = Ok (VList (schema_json t)).
Proof. reflexivity. Qed.

(** X2: without rewriting the merge never raises, whatever the tiles; and
    one tile, or any number of copies of it, gives exactly that tile's
    format, schema and reference system, none of them in a
    ListOfConflicts. *)
Theorem merge_without_rewrite :
  (forall tiles, succeeds (rewrite_and_merge_metadata tiles NO_REWRITE))
  /\ (forall t n,
        rewrite_and_merge_metadata (replicate (S n) t) NO_REWRITE
        = Ok (<["crs.wkt" := Plain (VStr (crs_wkt t))]>
              (<["schema.json" := Plain (VList (schema_json t))]>
              (<["format.json" := Plain (VDict (format_json t))]> ∅)))).
Proof.
  split.
  - intros tiles.
    destruct (merge_loop_returns equivalent_copc_pdrf
                get_record_length_from_pdrf get_schema_from_pdrf
                NO_REWRITE tiles ∅) as [r Hr].
    + apply Forall_forall. intros t _. done.
    + unfold MetadataUtil.rewrite_and_merge_metadata. by rewrite Hr.
  - intros t n. unfold MetadataUtil.rewrite_and_merge_metadata.
    cbn [replicate MetadataUtil.merge_loop].
    set (m := <["crs.wkt" := Plain (VStr (crs_wkt t))]>
              (<["schema.json" := Plain (VList (schema_json t))]>
              (<["format.json" := Plain (VDict (format_json t))]> ∅))).
    assert (Hfirst : merge_tile NO_REWRITE ∅ t = Ok m) by reflexivity.
    rewrite Hfirst. simpl.
    induction n as [|n IH]; [done|]. cbn [replicate MetadataUtil.merge_loop].
    rewrite (merge_tile_seen NO_REWRITE m t _ _
               (rewrite_format_no_rewrite t) (rewrite_schema_no_rewrite t)).
    + exact IH.
    + unfold m. rewrite lookup_insert_ne by done.
      rewrite lookup_insert_ne by done. rewrite lookup_insert_eq.
      apply list_elem_of_here.
    + unfold m. rewrite lookup_insert_ne by done. rewrite lookup_insert_eq.
      apply list_elem_of_here.
    + unfold m. rewrite lookup_insert_eq. apply list_elem_of_here.
Qed.

(** *** Dropping *)

Lemma rewrite_format_dropped t rm :
  flag_in DROP_FORMAT rm = true -> rewrite_format t rm = Ok (VDict ∅).
Proof. intros H. unfold MetadataUtil.rewrite_format. by rewrite H. Qed.

Lemma rewrite_schema_dropped t rm :
  flag_in DROP_SCHEMA rm = true -> rewrite_schema t rm = Ok (VDict ∅).
Proof. intros H. unfold MetadataUtil.rewrite_schema. by rewrite H. Qed.

Lemma incoming_format rm tiles :
  incoming rm "format.json" tiles
  = map (fun t => returned (rewrite_format t rm)) tiles.
Proof. reflexivity. Qed.

Lemma incoming_schema rm tiles :
  incoming rm "schema.json" tiles
  = map (fun t => returned (rewrite_schema t rm)) tiles.
Proof. reflexivity. Qed.

Lemma incoming_crs rm tiles :
  incoming rm "crs.wkt" tiles = map (fun t => VStr (crs_wkt t)) tiles.
Proof. reflexivity. Qed.

(** A key whose incoming values are all [v] holds [v] itself. *)
Lemma merged_single_value tiles rm r key v :
  rewrite_and_merge_metadata tiles rm = Ok r ->
  incoming rm key tiles ≠ [] ->
  Forall (fun x => x = v) (incoming rm key tiles) ->
  r !! key = Some (Plain v).
Proof.
  intros Hrun Hne Hall.
  rewrite (rewrite_and_merge_lookup _ _ _ _ _ _ key Hrun).
  by rewrite (distinct_values_single v).
Qed.

(** X3: under a policy with DROP_FORMAT a returned record of at least one
    tile holds the empty dict as its format, under one with DROP_SCHEMA the
    empty dict as its schema, in neither case a ListOfConflicts, however
    the tiles differ; under a policy with both flags the merge never
    raises. *)
Theorem merge_of_dropped_parts (tiles : list tile_metadata) (rm : Z) :
  tiles ≠ [] ->
  (flag_in DROP_FORMAT rm = true ->
   forall r, rewrite_and_merge_metadata tiles rm = Ok r ->
             r !! "format.json" = Some (Plain (VDict ∅)))
  /\ (flag_in DROP_SCHEMA rm = true ->
      forall r, rewrite_and_merge_metadata tiles rm = Ok r ->
                r !! "schema.json" = Some (Plain (VDict ∅)))
  /\ (flag_in DROP_FORMAT rm = true -> flag_in DROP_SCHEMA rm = true ->
      succeeds (rewrite_and_merge_metadata tiles rm)).
Proof.
  intros Hne. split; [|split].
  - intros Hflag r Hrun. apply (merged_single_value tiles rm); [done| |].
    + rewrite incoming_format. by destruct tiles.
    + rewrite incoming_format. apply Forall_map, Forall_forall.
      intros t _. simpl. by rewrite rewrite_format_dropped.
  - intros Hflag r Hrun. apply (merged_single_value tiles rm); [done| |].
    + rewrite incoming_schema. by destruct tiles.
    + rewrite incoming_schema. apply Forall_map, Forall_forall.
      intros t _. simpl. by rewrite rewrite_schema_dropped.
  - intros Hf Hs.
    destruct (merge_loop_returns equivalent_copc_pdrf
                get_record_length_from_pdrf get_schema_from_pdrf
                rm tiles ∅) as [r Hr].
    + apply Forall_forall. intros t _.
      by rewrite rewrite_format_dropped, rewrite_schema_dropped.
    + unfold MetadataUtil.rewrite_and_merge_metadata. by rewrite Hr.
Qed.

(** *** More tiles *)

Lemma incoming_app rm key tiles1 tiles2 :
  incoming rm key (tiles1 ++ tiles2)
  = incoming rm key tiles1 ++ incoming rm key tiles2.
Proof.
  unfold MetadataUtil.incoming. repeat case_decide; by rewrite ?map_app.
Qed.

Lemma fold_distinct_prefix vs : forall seen,
  seen `prefix_of` fold_left add_distinct vs seen.
Proof.
  induction vs as [|v vs IH]; intros seen; simpl; [done|].
  etrans; [|apply IH]. unfold add_distinct. case_decide; [done|].
  by apply prefix_app_r.
Qed.

Lemma merged_values tiles rm r key :
  rewrite_and_merge_metadata tiles rm = Ok r ->
  entry_values (r !! key) = distinct_values (incoming rm key tiles).
Proof.
  intros Hrun. rewrite (rewrite_and_merge_lookup _ _ _ _ _ _ key Hrun).
  apply entry_values_of_distinct.
Qed.

(** X4: the values a record holds keep their places when more tiles are
    merged: under every key, what the merge of the first tiles holds is a
    prefix of what the merge of all tiles holds; in particular a key in
    conflict stays in conflict. *)
Theorem merged_values_grow_at_the_end
    (tiles1 tiles2 : list tile_metadata) (rm : Z) (r1 r : gmap string entry) :
  rewrite_and_merge_metadata tiles1 rm = Ok r1 ->
  rewrite_and_merge_metadata (tiles1 ++ tiles2) rm = Ok r ->
  forall key,
    entry_values (r1 !! key) `prefix_of` entry_values (r !! key)
    /\ (classify (r1 !! key) = Conflicted -> classify (r !! key) = Conflicted).
Proof.
  intros H1 H key.
  assert (Hpre : entry_values (r1 !! key) `prefix_of` entry_values (r !! key)).
  { rewrite (merged_values _ _ _ key H1), (merged_values _ _ _ key H).
    rewrite incoming_app. unfold distinct_values. rewrite fold_left_app.
    apply fold_distinct_prefix. }
  split; [exact Hpre|].
  rewrite (rewrite_and_merge_lookup _ _ _ _ _ _ key H1),
          (rewrite_and_merge_lookup _ _ _ _ _ _ key H).
  rewrite (merged_values _ _ _ key H1), (merged_values _ _ _ key H) in Hpre.
  destruct Hpre as [k Hk]. rewrite Hk.
  destruct (distinct_values (incoming rm key tiles1)) as [|a [|b l]];
    [discriminate..|]. done.
Qed.

(** X5: tiles that are in the list already add nothing: merging the list
    followed by some of its own tiles gives what merging the list gives,
    the same record or the same exception. *)
Theorem merge_absorbs_seen_tiles
    (tiles1 tiles2 : list tile_metadata) (rm : Z) :
  (forall t, t ∈ tiles2 -> t ∈ tiles1) ->
  rewrite_and_merge_metadata (tiles1 ++ tiles2) rm
  = rewrite_and_merge_metadata tiles1 rm.
Proof.
  intros Hsub. unfold MetadataUtil.rewrite_and_merge_metadata.
  rewrite merge_loop_app.
  destruct (merge_loop rm tiles1 ∅) as [r1|e] eqn:H1; [|done].
  change (merge_loop rm tiles2 r1 = Ok r1).
  pose proof (merge_loop_succeeds _ _ _ _ _ _ _ H1) as Hok.
  assert (Hval : forall t key, t ∈ tiles1 ->
            forall v, v ∈ incoming rm key [t] ->
                      v ∈ entry_values (r1 !! key)).
  { intros t key Ht v Hv.
    rewrite (merged_values tiles1 rm r1 key H1).
    apply fold_distinct_elem. right.
    apply list_elem_of_split in Ht as (la & lb & ->).
    rewrite incoming_app, (incoming_cons _ _ _ rm key t lb).
    rewrite !elem_of_app. auto. }
  clear H1. induction tiles2 as [|t tiles2 IH]; [done|].
  assert (Ht : t ∈ tiles1) by apply Hsub, list_elem_of_here.
  cbn [MetadataUtil.merge_loop].
  unfold MetadataUtil.rewrites_succeed in Hok.
  rewrite Forall_forall in Hok. destruct (Hok t Ht) as [Hf Hs].
  destruct (rewrite_format t rm) as [f|] eqn:Ef; [|done].
  destruct (rewrite_schema t rm) as [sc|] eqn:Es; [|done].
  rewrite (merge_tile_seen rm r1 t f sc Ef Es).
  - simpl. apply IH. intros t' Ht'. by apply Hsub, list_elem_of_further.
  - apply (Hval t "format.json" Ht). rewrite incoming_format. simpl.
    rewrite Ef. apply list_elem_of_here.
  - apply (Hval t "schema.json" Ht). rewrite incoming_schema. simpl.
    rewrite Es. apply list_elem_of_here.
  - apply (Hval t "crs.wkt" Ht). rewrite incoming_crs. simpl.
    apply list_elem_of_here.
Qed.

(** *** Dropping the optimization *)

Lemma drop_optimization_lookup (f : gmap string scalar) key :
  filter (fun kv : string * scalar =>
            String.prefix "optimization" kv.1 = false) f !! key
  = if String.prefix "optimization" key then None else f !! key.
Proof.
  apply option_eq. intros x. rewrite map_lookup_filter_Some. simpl.
  destruct (String.prefix "optimization" key).
  - split; [intros [_ ?]; discriminate|discriminate].
  - split; [by intros [? _]|by intros ?].
Qed.

(** X6: under a policy with DROP_OPTIMIZATION and without DROP_FORMAT,
    [rewrite_format] returns the tile's format less every key that starts
    with "optimization", all other keys as they were, also when
    AS_IF_CONVERTED_TO_COPC is set; so two tiles whose formats agree on the
    other keys are rewritten to the same format. *)
Theorem rewrite_format_drops_optimization (t : tile_metadata) (rm : Z) :
  flag_in DROP_FORMAT rm = false ->
  flag_in DROP_OPTIMIZATION rm = true ->
  exists f,
    rewrite_format t rm = Ok (VDict f)
    /\ (forall key,
          f !! key = if String.prefix "optimization" key then None
                     else format_json t !! key)
    /\ (forall t',
          (forall key, String.prefix "optimization" key = false ->
                       format_json t' !! key = format_json t !! key) ->
          rewrite_format t' rm = Ok (VDict f)).
Proof.
  intros Hdf Hdo. unfold MetadataUtil.rewrite_format. rewrite Hdf, Hdo.
  eexists. split; [reflexivity|]. split.
  - apply drop_optimization_lookup.
  - intros t' Hagree. do 2 f_equal. apply map_eq. intros key.
    rewrite !drop_optimization_lookup.
    destruct (String.prefix "optimization" key) eqn:Hp; [done|].
    by apply Hagree.
Qed.

(** *** As if converted to COPC *)

(** The descriptor the rewrite builds for one record format and length. *)
Lemma rewrite_format_as_copc t rm :
  flag_in DROP_FORMAT rm = false ->
  flag_in DROP_OPTIMIZATION rm = false ->
  flag_in AS_IF_CONVERTED_TO_COPC rm = true ->
  rewrite_format t rm
  = orig_pdrf ← getitem (format_json t) "pointDataRecordFormat";
    new_pdrf ← equivalent_copc_pdrf orig_pdrf;
    record_length ← get_record_length_from_pdrf new_pdrf;
    Ok (VDict (<["compression" := JStr "laz"]>
              (<["lasVersion" := JStr "1.4"]>
              (<["optimization" := JStr "copc"]>
              (<["optimizationVersion" := JStr "1.0"]>
              (<["pointDataRecordFormat" := new_pdrf]>
              (<["pointDataRecordLength" := record_length]> ∅))))))).
Proof.
  intros Hdf Hdo Hc. unfold MetadataUtil.rewrite_format.
  by rewrite Hdf, Hdo, Hc.
Qed.

Lemma rewrite_schema_as_copc t rm :
  flag_in DROP_SCHEMA rm = false ->
  flag_in AS_IF_CONVERTED_TO_COPC rm = true ->
  rewrite_schema t rm
  = orig_pdrf ← getitem (format_json t) "pointDataRecordFormat";
    new_pdrf ← equivalent_copc_pdrf orig_pdrf;
    schema ← get_schema_from_pdrf new_pdrf;
    Ok (VList schema).
Proof.
  intros Hds Hc. unfold MetadataUtil.rewrite_schema. by rewrite Hds, Hc.
Qed.

(** X7: under AS_IF_CONVERTED_TO_COPC (no drop flag set) a tile without a
    "pointDataRecordFormat" makes both rewrites raise that KeyError; a
    format that [rewrite_format] returns is a valid descriptor with summary
    "laz-1.4/copc-1.0", whatever the tile's own compression and version
    were; and both rewrites look at the tile's record format only, so that
    tiles with the same record format are rewritten alike even when their
    schemas differ. *)
Theorem rewrite_as_if_converted_to_copc (t : tile_metadata) (rm : Z) :
  flag_in DROP_FORMAT rm = false ->
  flag_in DROP_OPTIMIZATION rm = false ->
  flag_in DROP_SCHEMA rm = false ->
  flag_in AS_IF_CONVERTED_TO_COPC rm = true ->
  (format_json t !! "pointDataRecordFormat" = None ->
   rewrite_format t rm = Raise (KeyError "pointDataRecordFormat")
   /\ rewrite_schema t rm = Raise (KeyError "pointDataRecordFormat"))
  /\ (forall v, rewrite_format t rm = Ok v ->
        exists f, v = VDict f /\ valid_format f = true
                  /\ get_format_summary (ADict f) = Ok "laz-1.4/copc-1.0"
                  /\ is_copc (ADict f) = Ok true
                  /\ get_las_version (ADict f) = Ok (JStr "1.4"))
  /\ (forall t',
        format_json t' !! "pointDataRecordFormat"
        = format_json t !! "pointDataRecordFormat" ->
        rewrite_format t' rm = rewrite_format t rm
        /\ rewrite_schema t' rm = rewrite_schema t rm).
Proof.
  intros Hdf Hdo Hds Hc. split; [|split].
  - intros Hnone.
    rewrite rewrite_format_as_copc, rewrite_schema_as_copc by done.
    unfold getitem. by rewrite Hnone.
  - intros v. rewrite rewrite_format_as_copc by done. unfold getitem.
    destruct (format_json t !! "pointDataRecordFormat") as [p|];
      [|discriminate].
    cbn [mbind result_bind].
    destruct (equivalent_copc_pdrf p) as [q|]; [|discriminate].
    cbn [mbind result_bind].
    destruct (get_record_length_from_pdrf q) as [len|]; [|discriminate].
    cbn [mbind result_bind]. intros [= <-]. eexists. split; [reflexivity|].
    repeat split.
  - intros t' Hsame.
    rewrite !rewrite_format_as_copc, !rewrite_schema_as_copc by done.
    unfold getitem. by rewrite Hsame.
Qed.

(** X8: under AS_IF_CONVERTED_TO_COPC (no drop flag set), when the record
    formats of all the tiles have one and the same COPC equivalent [q], a
    returned record holds one format, the COPC descriptor for [q], and one
    schema, the schema of [q]: differences between the tiles in
    compression, version, record format or schema give no conflict. *)
Theorem merge_as_if_converted_to_copc
    (tiles : list tile_metadata) (rm : Z) (r : gmap string entry)
    (q : scalar) :
  flag_in DROP_FORMAT rm = false ->
  flag_in DROP_OPTIMIZATION rm = false ->
  flag_in DROP_SCHEMA rm = false ->
  flag_in AS_IF_CONVERTED_TO_COPC rm = true ->
  tiles ≠ [] ->
  (forall t, t ∈ tiles ->
     exists p, format_json t !! "pointDataRecordFormat" = Some p
               /\ equivalent_copc_pdrf p = Ok q) ->
  rewrite_and_merge_metadata tiles rm = Ok r ->
  exists record_length schema,
    get_record_length_from_pdrf q = Ok record_length
    /\ get_schema_from_pdrf q = Ok schema
    /\ r !! "format.json"
       = Some (Plain (VDict (<["compression" := JStr "laz"]>
                            (<["lasVersion" := JStr "1.4"]>
                            (<["optimization" := JStr "copc"]>
                            (<["optimizationVersion" := JStr "1.0"]>
                            (<["pointDataRecordFormat" := q]>
                            (<["pointDataRecordLength" := record_length]>
                               ∅))))))))
    /\ r !! "schema.json" = Some (Plain (VList schema)).
Proof.
  intros Hdf Hdo Hds Hc Hne Hq Hrun.
  pose proof (merge_loop_succeeds _ _ _ _ _ _ _ Hrun) as Hok.
  unfold MetadataUtil.rewrites_succeed in Hok. rewrite Forall_forall in Hok.
  assert (Hrw : forall t, t ∈ tiles ->
            rewrite_format t rm
            = (record_length ← get_record_length_from_pdrf q;
               Ok (VDict (<["compression" := JStr "laz"]>
                         (<["lasVersion" := JStr "1.4"]>
                         (<["optimization" := JStr "copc"]>
                         (<["optimizationVersion" := JStr "1.0"]>
                         (<["pointDataRecordFormat" := q]>
                         (<["pointDataRecordLength" := record_length]>
                            ∅))))))))
            /\ rewrite_schema t rm
               = (schema ← get_schema_from_pdrf q; Ok (VList schema))).
  { intros t Ht. destruct (Hq t Ht) as (p & Hp & Hpq).
    rewrite rewrite_format_as_copc, rewrite_schema_as_copc by done.
    unfold getitem. rewrite Hp. cbn [mbind result_bind]. by rewrite Hpq. }
  destruct tiles as [|t0 tiles]; [done|].
  assert (Ht0 : t0 ∈ t0 :: tiles) by apply list_elem_of_here.
  destruct (Hok t0 Ht0) as [Hf0 Hs0]. destruct (Hrw t0 Ht0) as [Ef0 Es0].
  rewrite Ef0 in Hf0. rewrite Es0 in Hs0.
  destruct (get_record_length_from_pdrf q) as [len|]; [|done].
  destruct (get_schema_from_pdrf q) as [schema|]; [|done].
  exists len, schema. split; [done|]. split; [done|]. split.
  - apply (merged_single_value (t0 :: tiles) rm); [done|done|].
    rewrite incoming_format. apply Forall_map, Forall_forall.
    intros t Ht. simpl. by rewrite (proj1 (Hrw t Ht)).
  - apply (merged_single_value (t0 :: tiles) rm); [done|done|].
    rewrite incoming_schema. apply Forall_map, Forall_forall.
    intros t Ht. simpl. by rewrite (proj2 (Hrw t Ht)).
Qed.

(** *** Summaries of rewritten formats *)

(** X9: a format rewritten under DROP_FORMAT cannot be summarised:
    [get_format_summary] raises KeyError "compression" on it, while
    [is_copc] says no and [get_las_version] gives None; and a format
    rewritten under DROP_OPTIMIZATION (its compression and version in
    place) makes [get_format_summary] raise KeyError "optimization",
    because the summary subscripts that key. *)
Theorem summary_of_rewritten_format
    (t : tile_metadata) (rm : Z) (f : gmap string scalar) :
  rewrite_format t rm = Ok (VDict f) ->
  (flag_in DROP_FORMAT rm = true ->
   get_format_summary (ADict f) = Raise (KeyError "compression")
   /\ is_copc (ADict f) = Ok false
   /\ get_las_version (ADict f) = Ok JNone)
  /\ (flag_in DROP_FORMAT rm = false ->
      flag_in DROP_OPTIMIZATION rm = true ->
      format_json t !! "format.json" = None ->
      is_Some (format_json t !! "compression") ->
      is_Some (format_json t !! "lasVersion") ->
      get_format_summary (ADict f) = Raise (KeyError "optimization")).
Proof.
  intros Hrw. split.
  - intros Hdf. rewrite (rewrite_format_dropped t rm Hdf) in Hrw.
    injection Hrw as <-. done.
  - intros Hdf Hdo Hfj [c Hc] [ver Hv].
    unfold MetadataUtil.rewrite_format in Hrw. rewrite Hdf, Hdo in Hrw.
    injection Hrw as <-.
    unfold get_format_summary, format_summary_of_dict, getitem.
    rewrite !drop_optimization_lookup. cbn [String.prefix].
    rewrite Hfj, Hc, Hv. reflexivity.
Qed.

End MergeLaws.

(** *** Examples *)

Import MetadataUtil.

(** Without rewriting, the two example tiles are rewritten without
    raising, in whatever list. *)
Lemma example_rewrites_succeed tiles :
  rewrites_succeed not_called not_called not_called NO_REWRITE tiles.
Proof. apply Forall_forall. intros t _. split; exact I. Qed.

Lemma merged_record_keys_witness :
  exists r,
    rewrite_and_merge_metadata not_called not_called not_called
      [las_tile; copc_tile] NO_REWRITE = Ok r
    /\ dom r = {[ "format.json"; "schema.json"; "crs.wkt" ]}.
Proof.
  destruct (merge_loop_returns not_called not_called not_called NO_REWRITE
              [las_tile; copc_tile] ∅ (example_rewrites_succeed _))
    as [r Hrun].
  exists r. split; [exact Hrun|].
  exact (merged_record_keys not_called not_called not_called
           [las_tile; copc_tile] NO_REWRITE r Hrun).
Defined.

Lemma merge_of_dropped_parts_witness :
  [las_tile; copc_tile] ≠ []
  /\ flag_in DROP_FORMAT 12 = true
  /\ flag_in DROP_SCHEMA 12 = true
  /\ exists r,
       rewrite_and_merge_metadata not_called not_called not_called
         [las_tile; copc_tile] 12 = Ok r
       /\ r !! "format.json" = Some (Plain (VDict ∅))
       /\ r !! "schema.json" = Some (Plain (VDict ∅)).
Proof.
  assert (Hne : [las_tile; copc_tile] ≠ []) by discriminate.
  assert (Hf : flag_in DROP_FORMAT 12 = true) by reflexivity.
  assert (Hs : flag_in DROP_SCHEMA 12 = true) by reflexivity.
  pose proof (merge_of_dropped_parts not_called not_called not_called
                [las_tile; copc_tile] 12 Hne) as (Hfmt & Hsch & Hboth).
  split; [exact Hne|]. split; [exact Hf|]. split; [exact Hs|].
  pose proof (Hboth Hf Hs) as Hok.
  destruct (rewrite_and_merge_metadata not_called not_called not_called
              [las_tile; copc_tile] 12) as [r|e] eqn:Hrun; [|destruct Hok].
  exists r. split; [reflexivity|].
  split; [exact (Hfmt Hf r eq_refl)|exact (Hsch Hs r eq_refl)].
Defined.

Lemma merged_values_grow_at_the_end_witness :
  exists r1 r,
    rewrite_and_merge_metadata not_called not_called not_called
      [las_tile] NO_REWRITE = Ok r1
    /\ rewrite_and_merge_metadata not_called not_called not_called
         ([las_tile] ++ [copc_tile]) NO_REWRITE = Ok r
    /\ entry_values (r1 !! "format.json")
       `prefix_of` entry_values (r !! "format.json").
Proof.
  destruct (merge_loop_returns not_called not_called not_called NO_REWRITE
              [las_tile] ∅ (example_rewrites_succeed _)) as [r1 Hrun1].
  destruct (merge_loop_returns not_called not_called not_called NO_REWRITE
              ([las_tile] ++ [copc_tile]) ∅ (example_rewrites_succeed _))
    as [r Hrun].
  exists r1, r. split; [exact Hrun1|]. split; [exact Hrun|].
  exact (proj1 (merged_values_grow_at_the_end not_called not_called
                  not_called [las_tile] [copc_tile] NO_REWRITE r1 r
                  Hrun1 Hrun "format.json")).
Defined.

Lemma merge_absorbs_seen_tiles_witness :
  (forall t, t ∈ [copc_tile; las_tile] -> t ∈ [las_tile; copc_tile])
  /\ rewrite_and_merge_metadata not_called not_called not_called
       ([las_tile; copc_tile] ++ [copc_tile; las_tile]) NO_REWRITE
     = rewrite_and_merge_metadata not_called not_called not_called
         [las_tile; copc_tile] NO_REWRITE.
Proof.
  assert (Hsub : forall t, t ∈ [copc_tile; las_tile] ->
                           t ∈ [las_tile; copc_tile]).
  { intros t Ht. apply elem_of_cons in Ht as [->|Ht].
    - apply list_elem_of_further, list_elem_of_here.
    - apply list_elem_of_singleton in Ht as ->. apply list_elem_of_here. }
  split; [exact Hsub|].
  exact (merge_absorbs_seen_tiles not_called not_called not_called
           [las_tile; copc_tile] [copc_tile; las_tile] NO_REWRITE Hsub).
Defined.

Lemma rewrite_format_drops_optimization_witness :
  flag_in DROP_FORMAT 3 = false
  /\ flag_in DROP_OPTIMIZATION 3 = true
  /\ exists f,
       rewrite_format not_called not_called copc_tile 3 = Ok (VDict f)
       /\ f !! "optimization" = None
       /\ f !! "compression" = format_json copc_tile !! "compression".
Proof.
  split; [reflexivity|]. split; [reflexivity|].
  destruct (rewrite_format_drops_optimization not_called not_called
              copc_tile 3 eq_refl eq_refl) as (f & Hf & Hlookup & _).
  exists f. split; [exact Hf|].
  split; [exact (Hlookup "optimization")|exact (Hlookup "compression")].
Defined.

(** The example helpers know the record formats of the example tiles. *)
Lemma example_record_format t :
  t ∈ [las_tile; SchemaUtilExample.rgb_tile] ->
  exists p, format_json t !! "pointDataRecordFormat" = Some p
            /\ SchemaUtilExample.equivalent_copc_pdrf p = Ok (JInt 7).
Proof.
  intros Ht. apply elem_of_cons in Ht as [->|Ht].
  - exists (JInt 3). split; vm_compute; reflexivity.
  - apply list_elem_of_singleton in Ht as ->.
    exists (JInt 2). split; vm_compute; reflexivity.
Qed.

Lemma example_copc_rewrites_succeed :
  rewrites_succeed SchemaUtilExample.equivalent_copc_pdrf
    SchemaUtilExample.get_record_length_from_pdrf
    SchemaUtilExample.get_schema_from_pdrf 1
    [las_tile; SchemaUtilExample.rgb_tile].
Proof. repeat constructor; vm_compute; exact I. Qed.

Lemma rewrite_as_if_converted_to_copc_witness :
  flag_in DROP_FORMAT 1 = false
  /\ flag_in DROP_OPTIMIZATION 1 = false
  /\ flag_in DROP_SCHEMA 1 = false
  /\ flag_in AS_IF_CONVERTED_TO_COPC 1 = true
  /\ exists f,
       rewrite_format SchemaUtilExample.equivalent_copc_pdrf
         SchemaUtilExample.get_record_length_from_pdrf las_tile 1
       = Ok (VDict f)
       /\ get_format_summary (ADict f) = Ok "laz-1.4/copc-1.0".
Proof.
  do 4 (split; [reflexivity|]).
  pose proof example_copc_rewrites_succeed as Hok.
  apply Forall_cons in Hok as [[Hok _] _].
  destruct (rewrite_format SchemaUtilExample.equivalent_copc_pdrf
              SchemaUtilExample.get_record_length_from_pdrf las_tile 1)
    as [v|e] eqn:Hv; [|destruct Hok].
  destruct (proj1 (proj2 (rewrite_as_if_converted_to_copc
              SchemaUtilExample.equivalent_copc_pdrf
              SchemaUtilExample.get_record_length_from_pdrf
              SchemaUtilExample.get_schema_from_pdrf
              las_tile 1 eq_refl eq_refl eq_refl eq_refl)) v Hv)
    as (f & -> & _ & Hsum & _).
  exists f. split; [reflexivity|exact Hsum].
Defined.

Lemma merge_as_if_converted_to_copc_witness :
  exists r,
    rewrite_and_merge_metadata SchemaUtilExample.equivalent_copc_pdrf
      SchemaUtilExample.get_record_length_from_pdrf
      SchemaUtilExample.get_schema_from_pdrf
      [las_tile; SchemaUtilExample.rgb_tile] 1 = Ok r
    /\ classify (r !! "format.json") = Scalar
    /\ classify (r !! "schema.json") = Scalar.
Proof.
  destruct (merge_loop_returns SchemaUtilExample.equivalent_copc_pdrf
              SchemaUtilExample.get_record_length_from_pdrf
              SchemaUtilExample.get_schema_from_pdrf 1
              [las_tile; SchemaUtilExample.rgb_tile] ∅
              example_copc_rewrites_succeed) as [r Hrun].
  exists r. split; [exact Hrun|].
  destruct (merge_as_if_converted_to_copc
              SchemaUtilExample.equivalent_copc_pdrf
              SchemaUtilExample.get_record_length_from_pdrf
              SchemaUtilExample.get_schema_from_pdrf
              [las_tile; SchemaUtilExample.rgb_tile] 1 r (JInt 7)
              eq_refl eq_refl eq_refl eq_refl ltac:(discriminate)
              example_record_format Hrun)
    as (len & schema & _ & _ & Hf & Hs).
  split; [exact (f_equal classify Hf)|exact (f_equal classify Hs)].
Defined.

Lemma summary_of_rewritten_format_witness :
  flag_in DROP_FORMAT 2 = false
  /\ flag_in DROP_OPTIMIZATION 2 = true
  /\ exists f,
       rewrite_format not_called not_called copc_tile 2 = Ok (VDict f)
       /\ get_format_summary (ADict f) = Raise (KeyError "optimization").
Proof.
  split; [reflexivity|]. split; [reflexivity|].
  eexists. split; [reflexivity|].
  refine (proj2 (summary_of_rewritten_format not_called not_called
                   copc_tile 2 _ eq_refl) eq_refl eq_refl _ _ _).
  - vm_compute. reflexivity.
  - eexists. vm_compute. reflexivity.
  - eexists. vm_compute. reflexivity.
Defined.
